(** * Helicone: the transactional log writer, the batch orchestrator and
      the Anthropic chat proxy

    A shallow embedding of

    - [src/valhalla/jawn/src/lib/stores/LogStore.ts]
      ([insertLogBatch], [processPrompt]),
    - [src/web/pages/api/anthropic/chat/index.ts] ([handler]) and the
      [LogManager.processLogEntries] orchestrator that accompanies it,

    together with the properties the specification states about them and
    further properties read off the code: every path of the handler, what
    the orchestrator drops and reports, and what a call of the log store
    keeps, sends and leaves behind.

    JavaScript values are an inductive type, numbers are binary64 floats,
    objects are association lists in property order.  The database is a
    record of tables; a transaction is a computation in a state-and-exception
    monad whose state is the database as seen inside the transaction, the
    number of statements issued and the trace of what was done. *)

From Stdlib Require Import ZArith Floats.
From stdpp Require Import gmap strings list pretty sorting.

Set Warnings "-register-all".
Local Open Scope Z_scope.

(** ** JavaScript values *)

Inductive value :=
| VUndefined
| VNull
| VBool (b : bool)
| VNum (x : float)
| VStr (s : string)
| VArr (items : list value)
| VObj (props : list (string * value)).

(** An object: its own enumerable properties, in property order. *)
Abbreviation obj := (list (string * value)).

(** [ToBoolean]: [undefined], [null], [false], [0], [-0], [NaN] and the
    empty string are falsy, everything else (every object) is truthy. *)
Definition truthy (v : value) : bool :=
  match v with
  | VUndefined | VNull => false
  | VBool b => b
  | VNum x => negb (PrimFloat.eqb x 0%float || PrimFloat.is_nan x)
  | VStr s => negb (String.eqb s "")
  | VArr _ | VObj _ => true
  end.

(** [o.k] on an object, whose property names are distinct: the property, or
    [undefined] when it is absent. *)
Fixpoint prop (o : obj) (k : string) : value :=
  match o with
  | [] => VUndefined
  | (k', v) :: o' => if String.eqb k' k then v else prop o' k
  end.

(** [v.k] on any value that is not [undefined] or [null]: primitives and
    arrays have no own property of the names used here. *)
Definition member (v : value) (k : string) : value :=
  match v with
  | VObj o => prop o k
  | _ => VUndefined
  end.

(** The results of [lib/result]: [{ data, error }] with one of them null. *)
Record Result (T : Type) := MkResult { data : option T; error : option string }.
Arguments MkResult {T} _ _.
Arguments data {T} _.
Arguments error {T} _.

Definition ok {T} (x : T) : Result T := MkResult (Some x) None.
Definition err {T} (e : string) : Result T := MkResult None (Some e).

(** ** The chat proxy: [pages/api/anthropic/chat/index.ts] *)

Module Chat.

(** What [client.auth.getUser()] yields in [user.data.user]. *)
Record User := { user_id : string; user_email : option string }.

(** The argument of [anthropic.messages.create]. *)
Record CreateParams := {
  cp_model : string;
  cp_max_tokens : value;
  cp_temperature : value;
  cp_metadata_user_id : string;
  cp_messages : value
}.

(** The body sent with [res.status(_).json(_)]. *)
Record Reply := { reply_error : option string; reply_data : option value }.

(** Everything the handler does that is visible outside it. *)
Inductive effect :=
| GetUser
| MessagesCreate (p : CreateParams)
| Respond (status : Z) (body : Reply).

Section Handler.

(** [DEMO_EMAIL] of [lib/constants]. *)
Variable DEMO_EMAIL : string.

(** The account of the session, [None] when [user.data.user] is null. *)
Variable session : option User.

(** The model provider: the completion, or the error it throws rendered
    as by a template literal. *)
Variable provider : CreateParams -> string + value.

Definition handler (body : obj) : list effect :=
  let messages := prop body "messages" in
  let temperature := prop body "temperature" in
  let model := prop body "model" in
  let maxTokens := prop body "maxTokens" in
  if negb (truthy temperature) || negb (truthy model) then
    [GetUser;
     Respond 400
       {| reply_error := Some "Bad request - missing required body parameters";
          reply_data := None |}]
  else
    match session with
    | None =>
        [GetUser;
         Respond 401 {| reply_error := Some "Unauthorized"; reply_data := None |}]
    | Some u =>
        if decide (user_email u = Some DEMO_EMAIL) then
          [GetUser;
           Respond 401 {| reply_error := Some "Unauthorized"; reply_data := None |}]
        else
          let params :=
            {| cp_model := "claude-3-opus-20240229";
               cp_max_tokens := maxTokens;
               cp_temperature := temperature;
               cp_metadata_user_id := user_id u;
               cp_messages := messages |} in
          match provider params with
          | inr completion =>
              [GetUser; MessagesCreate params;
               Respond 200 {| reply_error := None; reply_data := Some completion |}]
          | inl e =>
              [GetUser; MessagesCreate params;
               Respond 500 {| reply_error := Some e; reply_data := None |}]
          end
    end.

End Handler.

(** The calls made to the model provider. *)
Definition provider_calls (es : list effect) : list CreateParams :=
  omap (fun e => match e with MessagesCreate p => Some p | _ => None end) es.

(** The statuses answered. *)
Definition statuses (es : list effect) : list Z :=
  omap (fun e => match e with Respond s _ => Some s | _ => None end) es.

(** A request passes validation and authorization. *)
Definition accepted (DEMO_EMAIL : string) (session : option User) (body : obj) : Prop :=
  truthy (prop body "temperature") = true /\
  truthy (prop body "model") = true /\
  exists u, session = Some u /\ user_email u <> Some DEMO_EMAIL.

(** The bodies of the two refusals. *)
Definition bad_request : Reply :=
  {| reply_error := Some "Bad request - missing required body parameters";
     reply_data := None |}.

Definition unauthorized : Reply :=
  {| reply_error := Some "Unauthorized"; reply_data := None |}.

End Chat.

(** ** The log store: [lib/stores/LogStore.ts] *)

Module LogStore.

(** *** Tables *)

(** Identifiers the database generates ([RETURNING id]).  They are [uuid]
    column values, which are never the empty string; a value of this type is
    the serial number of the identifier's generation. *)
Abbreviation uuid := N.

(** A row of one of the bulk tables: its primary key [id] and its other
    columns by name. *)
Record row := Row { row_id : string; row_cols : gmap string value }.

(** An element of [payload.requests], [payload.responses] or
    [payload.properties]: an object whose [id] is a string. *)
Record entry := Entry { entry_id : string; entry_obj : obj }.

Record prompt_row := PromptRow {
  p_id : uuid;
  p_user_defined_id : string;
  p_organization : string;
  p_created_at : Z
}.

Record version_row := VersionRow {
  v_id : uuid;
  v_prompt_v2 : uuid;
  v_organization : string;
  v_major_version : Z;
  v_minor_version : Z;
  v_helicone_template : value;
  v_model : option string;
  v_created_at : Z
}.

Record input_record_row := InputRecordRow {
  ir_inputs : value;
  ir_source_request : string;
  ir_prompt_version : uuid;
  ir_created_at : Z
}.

(** The tables, in the order the writer touches them.  [prompt_input_keys]
    holds the pairs [(key, prompt_version)], which are unique.  Times are
    milliseconds since the epoch. *)
Record database := Database {
  request : list row;
  response : list row;
  properties : list row;
  prompt_v2 : list prompt_row;
  prompts_versions : list version_row;
  prompt_input_keys : gset (string * uuid);
  prompt_input_record : list input_record_row;
  next_uuid : uuid
}.

Definition set_request (f : list row -> list row) (d : database) : database :=
  Database (f (request d)) (response d) (properties d) (prompt_v2 d)
    (prompts_versions d) (prompt_input_keys d) (prompt_input_record d) (next_uuid d).

Definition set_response (f : list row -> list row) (d : database) : database :=
  Database (request d) (f (response d)) (properties d) (prompt_v2 d)
    (prompts_versions d) (prompt_input_keys d) (prompt_input_record d) (next_uuid d).

Definition set_properties (f : list row -> list row) (d : database) : database :=
  Database (request d) (response d) (f (properties d)) (prompt_v2 d)
    (prompts_versions d) (prompt_input_keys d) (prompt_input_record d) (next_uuid d).

(** *** Column sets and the upsert *)

Definition requestColumns : list string :=
  ["auth_hash"; "body"; "created_at"; "formatted_prompt_id";
   "helicone_api_key_id"; "helicone_org_id"; "helicone_proxy_key_id";
   "helicone_user"; "id"; "model"; "model_override"; "path"; "prompt_id";
   "prompt_values"; "properties"; "provider"; "request_ip"; "target_url";
   "threat"; "user_id"].

Definition responseColumns : list string :=
  ["body"; "completion_tokens"; "created_at"; "delay_ms"; "feedback"; "id";
   "model"; "prompt_tokens"; "request"; "status"; "time_to_first_token"].

(** The array in the source has a hole after ["id"]; it names no column.
    The option [cdn] given with ["id"] in the three column sets is not one
    that changes which columns are inserted or assigned. *)
Definition propertiesColumns : list string :=
  ["auth_hash"; "created_at"; "id"; "key"; "request_id"; "user_id"; "value"].

(** [cs.assignColumns({ from: "EXCLUDED", skip: "id" })]: the columns that
    [DO UPDATE SET] assigns. *)
Definition assignColumns (cs : list string) : list string :=
  filter (fun c => c <> "id") cs.

(** A property that is [undefined] is sent as [null]. *)
Definition sql_value (v : value) : value :=
  match v with VUndefined => VNull | _ => v end.

(** The values an entry proposes for the columns other than the key. *)
Definition excluded (cs : list string) (e : entry) : gmap string value :=
  list_to_map ((fun c => (c, sql_value (prop (entry_obj e) c))) <$> assignColumns cs).

(** [DO UPDATE SET c = EXCLUDED.c] for every assigned column [c]: the key
    stays, the assigned columns take the proposed values. *)
Definition do_update (cs : list string) (e : entry) (old : row) : row :=
  Row (row_id old) (excluded cs e ∪ row_cols old).

(** [INSERT ... ON CONFLICT (id) DO UPDATE SET ...] of one proposed row. *)
Definition upsert_row (cs : list string) (tbl : list row) (e : entry) : list row :=
  if decide (entry_id e ∈ row_id <$> tbl) then
    (fun old => if decide (row_id old = entry_id e) then do_update cs e old else old) <$> tbl
  else tbl ++ [Row (entry_id e) (excluded cs e)].

(** [pgp.helpers.insert(rows, cs) + onConflict]: the proposed rows in turn. *)
Definition upsert (cs : list string) (es : list entry) (tbl : list row) : list row :=
  foldl (upsert_row cs) tbl es.

(** *** Prompt records and the payload *)

Record PromptRecord := {
  promptId : string;
  orgId : string;
  requestId : string;
  heliconeTemplate : value;
  model : option string;
  createdAt : Z
}.

Record BatchPayload := {
  requests : list entry;
  responses : list entry;
  properties_in : list entry;
  prompts : list PromptRecord
}.

(** *** Sorting the prompts *)

(** A [Date] is an object, hence truthy. *)
Definition date_truthy (d : Z) : bool := true.

(** The comparator given to [payload.prompts.sort]. *)
Definition byCreatedAt (a b : PromptRecord) : Z :=
  if date_truthy (createdAt a) && date_truthy (createdAt b) then
    if createdAt a <? createdAt b then -1
    else if createdAt a >? createdAt b then 1
    else 0
  else 0.

(** [Array.prototype.sort] is stable, and for a comparator that is a
    consistent ordering its result is the one of inserting each element,
    from the last to the first, in front of the first element it does not
    compare greater than. *)
Fixpoint sort_insert {A} (cmp : A -> A -> Z) (x : A) (l : list A) : list A :=
  match l with
  | [] => [x]
  | y :: l' => if 0 <? cmp x y then y :: sort_insert cmp x l' else x :: l
  end.

Definition Array_sort {A} (cmp : A -> A -> Z) (l : list A) : list A :=
  foldr (sort_insert cmp) [] l.

(** *** Transactions *)

(** The statements of the source, by the place they are issued. *)
Inductive statement :=
| Begin
| Commit
| Rollback
| InsertRequest
| InsertResponse
| InsertProperties
| AdvisoryXactLock (key : string)
| SelectPrompt
| InsertPrompt
| SelectLatestVersion
| InsertVersion
| InsertInputKeys
| InsertInputRecord.

(** What a transaction did: the statements it issued and the calls of
    [processPrompt]. *)
Inductive event :=
| Stmt (s : statement)
| ProcessPrompt (r : PromptRecord).

Inductive exn :=
| DbError (n : nat)
| QueryResultError
| TypeError.

(** Inside a transaction: the database as the transaction sees it, the number
    of statements issued so far and the trace. *)
Record txstate := TxState {
  tx_db : database;
  tx_issued : nat;
  tx_trace : list event
}.

(** A computation either returns or throws; the state it leaves is kept in
    both cases. *)
Definition Tx (A : Type) : Type := txstate -> (exn + A) * txstate.

Definition ret {A} (x : A) : Tx A := fun st => (inr x, st).

Definition raise {A} (e : exn) : Tx A := fun st => (inl e, st).

Definition bind {A B} (m : Tx A) (k : A -> Tx B) : Tx B :=
  fun st =>
    match m st with
    | (inr x, st') => k x st'
    | (inl e, st') => (inl e, st')
    end.

Definition lift {A} (r : exn + A) : Tx A := fun st => (r, st).

Definition log_event (e : event) : Tx unit :=
  fun st => (inr tt, TxState (tx_db st) (tx_issued st) (tx_trace st ++ [e])).

Definition run_on_db {A} (f : database -> A * database) : Tx A :=
  fun st =>
    let '(x, d) := f (tx_db st) in
    (inr x, TxState d (tx_issued st) (tx_trace st)).

Notation "'do' x <- m ; k" := (bind m (fun x => k))
  (at level 10, x name, m at level 100, k at level 200).
Notation "'run' m ; k" := (bind m (fun _ => k))
  (at level 10, m at level 100, k at level 200).

(** [Object.keys]: throws on [undefined] and [null]; the property names of
    an object, the indices of an array or a string, nothing for the other
    primitives. *)
Definition Object_keys (v : value) : exn + list string :=
  match v with
  | VUndefined | VNull => inl TypeError
  | VObj o => inr (o.*1)
  | VArr items => inr (pretty <$> seq 0 (length items))
  | VStr s => inr (pretty <$> seq 0 (String.length s))
  | VBool _ | VNum _ => inr []
  end.

(** [SELECT id FROM prompt_v2 WHERE organization = $1 AND user_defined_id = $2] *)
Definition select_prompt (org pid : string) (d : database) : list prompt_row :=
  filter (fun p => p_organization p = org /\ p_user_defined_id p = pid) (prompt_v2 d).

(** [INSERT INTO prompt_v2 (user_defined_id, organization, created_at)
     VALUES ($1, $2, $3) RETURNING id] *)
Definition insert_prompt (pid org : string) (at_ : Z) (d : database) : uuid * database :=
  (next_uuid d,
   Database (request d) (response d) (properties d)
     (prompt_v2 d ++ [PromptRow (next_uuid d) pid org at_])
     (prompts_versions d) (prompt_input_keys d) (prompt_input_record d)
     (N.succ (next_uuid d))).

(** [ORDER BY major_version DESC LIMIT 1]: a row of greatest
    [major_version].  The statement leaves open which one among equals; the
    earliest stored is taken. *)
Definition greatest_major (vs : list version_row) : option version_row :=
  foldl (fun best v =>
           match best with
           | None => Some v
           | Some b => if v_major_version b <? v_major_version v then Some v else Some b
           end) None vs.

(** [SELECT id, major_version, helicone_template, created_at
     FROM prompts_versions WHERE organization = $1 AND prompt_v2 = $2
     ORDER BY major_version DESC LIMIT 1] *)
Definition select_latest_version (org : string) (p : uuid) (d : database)
  : option version_row :=
  greatest_major
    (filter (fun v => v_organization v = org /\ v_prompt_v2 v = p) (prompts_versions d)).

(** [INSERT INTO prompts_versions (prompt_v2, organization, major_version,
     minor_version, helicone_template, model, created_at)
     VALUES ($1, $2, $3, 0, $4, $5, $6) RETURNING id] *)
Definition insert_version (p : uuid) (org : string) (major : Z) (template : value)
    (mdl : option string) (at_ : Z) (d : database) : uuid * database :=
  (next_uuid d,
   Database (request d) (response d) (properties d) (prompt_v2 d)
     (prompts_versions d ++ [VersionRow (next_uuid d) p org major 0 template mdl at_])
     (prompt_input_keys d) (prompt_input_record d)
     (N.succ (next_uuid d))).

(** [INSERT INTO prompt_input_keys ... ON CONFLICT (key, prompt_version)
     DO NOTHING]: one pair per key, pairs already there are left alone. *)
Definition insert_input_keys (keys : list string) (version : uuid) (d : database)
  : database :=
  Database (request d) (response d) (properties d) (prompt_v2 d) (prompts_versions d)
    (prompt_input_keys d ∪ list_to_set ((fun k => (k, version)) <$> keys))
    (prompt_input_record d) (next_uuid d).

(** [INSERT INTO prompt_input_record (inputs, source_request, prompt_version,
     created_at) VALUES ($1, $2, $3, $4)]; the JSON text of the inputs is
    kept as the value it denotes. *)
Definition insert_input_record (inputs : value) (source : string) (version : uuid)
    (at_ : Z) (d : database) : database :=
  Database (request d) (response d) (properties d) (prompt_v2 d) (prompts_versions d)
    (prompt_input_keys d)
    (prompt_input_record d ++ [InputRecordRow inputs source version at_])
    (next_uuid d).

Section Methods.

(** Which statements fail, by their number in the transaction.  Whatever
    makes the call of a query method throw (a constraint, a statement the
    server does not accept, a result of a shape the method does not accept, a
    lost connection) is an instance of it; what the statements do when they
    do not fail is what their text is written to do. *)
Variable fails : nat -> bool.

(** [deepCompare] of [utils/helpers]. *)
Variable deepCompare : value -> value -> bool.

(** Sending a statement: it is counted and traced, and the server may
    reject it. *)
Definition issue (s : statement) : Tx unit :=
  fun st =>
    let st' := TxState (tx_db st) (S (tx_issued st)) (tx_trace st ++ [Stmt s]) in
    if fails (tx_issued st) then (inl (DbError (tx_issued st)), st')
    else (inr tt, st').

(** [t.none(sql)]: a statement run for its effect. *)
Definition t_none (s : statement) (f : database -> database) : Tx unit :=
  run issue s; run_on_db (fun d => (tt, f d)).

(** [t.oneOrNone(sql)]: no row, one row, or [QueryResultError] when the
    query yields several. *)
Definition t_oneOrNone {A} (s : statement) (q : database -> list A) : Tx (option A) :=
  run issue s;
  do rows <- run_on_db (fun d => (q d, d));
  match rows with
  | [] => ret None
  | [x] => ret (Some x)
  | _ => raise QueryResultError
  end.

(** [t.one(sql)] of an [INSERT ... RETURNING id], which yields one row. *)
Definition t_one {A} (s : statement) (f : database -> A * database) : Tx A :=
  run issue s; run_on_db f.

(** [versionId] is [None] where the source holds the empty string, its value
    while no version is known. *)
Definition processPrompt (newPromptRecord : PromptRecord) : Tx (Result string) :=
  let heliconeTemplate := heliconeTemplate newPromptRecord in
  if negb (truthy heliconeTemplate) then ret (ok "No Helicone template to process")
  else
    do found <- t_oneOrNone SelectPrompt
                  (select_prompt (orgId newPromptRecord) (promptId newPromptRecord));
    do existingPrompt <-
      match found with
      | Some p => ret (p_id p)
      | None =>
          t_one InsertPrompt
            (insert_prompt (promptId newPromptRecord) (orgId newPromptRecord)
               (createdAt newPromptRecord))
      end;
    do existingPromptVersion <-
      t_oneOrNone SelectLatestVersion
        (fun d => option_list
                    (select_latest_version (orgId newPromptRecord) existingPrompt d));
    let versionId := v_id <$> existingPromptVersion in
    do versionId <-
      if match existingPromptVersion with
         | None => true
         | Some v =>
             (v_created_at v <=? createdAt newPromptRecord)
             && negb (deepCompare (v_helicone_template v) heliconeTemplate)
         end
      then
        let majorVersion :=
          match existingPromptVersion with
          | Some v => v_major_version v + 1
          | None => 0
          end in
        do newVersionResult <-
          t_one InsertVersion
            (insert_version existingPrompt (orgId newPromptRecord) majorVersion
               heliconeTemplate (model newPromptRecord) (createdAt newPromptRecord));
        ret (Some newVersionResult)
      else ret versionId;
    run match versionId with
        | Some version =>
            do keys <- lift (Object_keys (member heliconeTemplate "inputs"));
            run t_none InsertInputKeys (insert_input_keys keys version);
            t_none InsertInputRecord
              (insert_input_record (member heliconeTemplate "inputs")
                 (requestId newPromptRecord) version (createdAt newPromptRecord))
        | None => ret tt
        end;
    ret (ok "Prompt processed successfully").

(** [for (const promptRecord of payload.prompts) { lock; processPrompt }] *)
Fixpoint for_prompts (rs : list PromptRecord) : Tx unit :=
  match rs with
  | [] => ret tt
  | promptRecord :: rest =>
      run t_none (AdvisoryXactLock (promptId promptRecord)) (fun d => d);
      run log_event (ProcessPrompt promptRecord);
      run processPrompt promptRecord;
      for_prompts rest
  end.

(** The callback given to [db.tx].  An array is truthy, so each guard is
    the test of its length.  The sort is in place: the loop runs over the
    sorted array. *)
Definition transaction (payload : BatchPayload) : Tx unit :=
  run (if 0 <? length (requests payload) then
         t_none InsertRequest (set_request (upsert requestColumns (requests payload)))
       else ret tt)%nat;
  run (if 0 <? length (responses payload) then
         t_none InsertResponse (set_response (upsert responseColumns (responses payload)))
       else ret tt)%nat;
  run (if 0 <? length (properties_in payload) then
         t_none InsertProperties
           (set_properties (upsert propertiesColumns (properties_in payload)))
       else ret tt)%nat;
  for_prompts (Array_sort byCreatedAt (prompts payload)).

(** What a call leaves behind: the value it returned, the database after
    it, and what its transaction did. *)
Record outcome := Outcome {
  returned : Result string;
  stored : database;
  trace : list event
}.

(** [db.tx(cb)]: [BEGIN], the callback, then [COMMIT], or [ROLLBACK] and the
    callback's exception; only a commit changes the database. *)
Definition db_tx {A} (cb : Tx A) (d : database) : (exn + A) * database * list event :=
  match issue Begin (TxState d 0 []) with
  | (inl e, st) => (inl e, d, tx_trace st)
  | (inr _, st) =>
      match cb st with
      | (inr x, st') =>
          match issue Commit st' with
          | (inr _, st'') => (inr x, tx_db st'', tx_trace st'')
          | (inl e, st'') => (inl e, d, tx_trace st'')
          end
      | (inl e, st') => (inl e, d, tx_trace st' ++ [Stmt Rollback])
      end
  end.

Definition insertLogBatch (payload : BatchPayload) (d : database) : outcome :=
  match db_tx (transaction payload) d with
  | (inr _, d', tr) => Outcome (ok "Successfully inserted log batch") d' tr
  | (inl _, d', tr) => Outcome (err "Failed to insert log batch") d' tr
  end.

End Methods.

(** *** The vocabulary of the specification *)

(** The prompt a record belongs to: the row its lookup finds or, when there
    is none, the row that is created for it. *)
Definition prompt_of (r : PromptRecord) (d : database) : uuid :=
  match select_prompt (orgId r) (promptId r) d with
  | p :: _ => p_id p
  | [] => next_uuid d
  end.

(** The latest version of the record's prompt: the one of highest
    [major_version], if the prompt has any. *)
Definition latest_version (r : PromptRecord) (d : database) : option version_row :=
  select_latest_version (orgId r) (prompt_of r d) d.

(** When the resolver is to mint: no version exists, or the latest one is not
    younger than the record and its template differs from the record's
    under the deep comparison. *)
Definition must_mint (deepCompare : value -> value -> bool)
    (latest : option version_row) (r : PromptRecord) : Prop :=
  latest = None \/
  exists v, latest = Some v /\
    v_created_at v <= createdAt r /\
    deepCompare (v_helicone_template v) (heliconeTemplate r) = false.

(** The major version a minted version gets. *)
Definition next_major (latest : option version_row) : Z :=
  match latest with
  | Some v => v_major_version v + 1
  | None => 0
  end.

(** The version a record mints. *)
Definition minted (r : PromptRecord) (d : database) (id : uuid) : version_row :=
  VersionRow id (prompt_of r d) (orgId r) (next_major (latest_version r d)) 0
    (heliconeTemplate r) (model r) (createdAt r).

(** The audit row of a record resolved to version [id]. *)
Definition audit_row (r : PromptRecord) (id : uuid) : input_record_row :=
  InputRecordRow (member (heliconeTemplate r) "inputs") (requestId r) id (createdAt r).

(** The order the prompts are sorted in. *)
Definition older_or_equal (a b : PromptRecord) : Prop := createdAt a <= createdAt b.

(** The steps the loop over the prompts takes for these records: the lock
    of each, then its resolution. *)
Definition prompt_steps (rs : list PromptRecord) : list event :=
  rs ≫= (fun r => [Stmt (AdvisoryXactLock (promptId r)); ProcessPrompt r]).

(** A lock or a call of [processPrompt]. *)
Definition is_prompt_step (e : event) : bool :=
  match e with
  | Stmt (AdvisoryXactLock _) | ProcessPrompt _ => true
  | _ => false
  end.

(** The locks and the calls of [processPrompt] in a trace, in their order. *)
Definition steps_of (tr : list event) : list event :=
  filter (fun e => is_prompt_step e = true) tr.



(** The decision of [processPrompt] to mint, as it computes it. *)
Definition mint_decision (deepCompare : value -> value -> bool)
    (latest : option version_row) (r : PromptRecord) : bool :=
  match latest with
  | None => true
  | Some v =>
      (v_created_at v <=? createdAt r)
      && negb (deepCompare (v_helicone_template v) (heliconeTemplate r))
  end.

(** *** The resolution procedure, as the specification gives it *)

(** Step 1: the prompt of the record exists afterwards. *)
Definition ensure_prompt (r : PromptRecord) (d : database) : database :=
  match select_prompt (orgId r) (promptId r) d with
  | [] => (insert_prompt (promptId r) (orgId r) (createdAt r) d).2
  | _ => d
  end.

(** Steps 2 to 4: the version the record is resolved to is a new one, minted
    when [must_mint] says so, and else the latest one. *)
Definition resolved_version (deepCompare : value -> value -> bool)
    (r : PromptRecord) (d : database) : option uuid :=
  if mint_decision deepCompare (latest_version r d) r
  then Some (next_uuid (ensure_prompt r d))
  else v_id <$> latest_version r d.

(** The database with the prompt and with the version that is minted, if
    one is. *)
Definition with_version (deepCompare : value -> value -> bool)
    (r : PromptRecord) (d : database) : database :=
  if mint_decision deepCompare (latest_version r d) r
  then (insert_version (prompt_of r d) (orgId r) (next_major (latest_version r d))
          (heliconeTemplate r) (model r) (createdAt r) (ensure_prompt r d)).2
  else ensure_prompt r d.

(** The whole procedure on one record: nothing for a record without a
    template; else steps 1 to 4 and step 5, the input keys and the audit
    row.  It is undefined for a template whose inputs have no keys to
    read. *)
Definition resolve (deepCompare : value -> value -> bool)
    (r : PromptRecord) (d : database) : option database :=
  if truthy (heliconeTemplate r) then
    match resolved_version deepCompare r d,
          Object_keys (member (heliconeTemplate r) "inputs") with
    | Some version, inr keys =>
        Some (insert_input_record (member (heliconeTemplate r) "inputs")
                (requestId r) version (createdAt r)
                (insert_input_keys keys version (with_version deepCompare r d)))
    | _, _ => None
    end
  else Some d.

(** The procedure on the records of a batch, in their order. *)
Fixpoint resolve_all (deepCompare : value -> value -> bool)
    (rs : list PromptRecord) (d : database) : option database :=
  match rs with
  | [] => Some d
  | r :: rs' =>
      match resolve deepCompare r d with
      | Some d' => resolve_all deepCompare rs' d'
      | None => None
      end
  end.


(** The database after the three upserts of a payload. *)
Definition upserted (payload : BatchPayload) (d : database) : database :=
  set_properties (upsert propertiesColumns (properties_in payload))
    (set_response (upsert responseColumns (responses payload))
       (set_request (upsert requestColumns (requests payload)) d)).

(** *** Reasoning about transactions *)

(** [Q] holds of what [m] answers and of the state it leaves. *)
Definition wp {A} (m : Tx A) (Q : exn + A -> txstate -> Prop) (st : txstate) : Prop :=
  Q (m st).1 (m st).2.

(** The state after one more statement was sent. *)
Definition sent (s : statement) (st : txstate) : txstate :=
  TxState (tx_db st) (S (tx_issued st)) (tx_trace st ++ [Stmt s]).

(** The state with another database. *)
Definition with_db (d : database) (st : txstate) : txstate :=
  TxState d (tx_issued st) (tx_trace st).

(** From [st] to [st'] the database moved along [D] and the trace grew by
    events that satisfy [P]. *)
Definition evolves (D : relation database) (P : event -> Prop)
    (st st' : txstate) : Prop :=
  D (tx_db st) (tx_db st') /\
  exists evs, tx_trace st' = tx_trace st ++ evs /\ Forall P evs.

(** Whatever it answers, [m] moves the state along [evolves D P]. *)
Definition preserves {A} (D : relation database) (P : event -> Prop) (m : Tx A) : Prop :=
  forall st, evolves D P st (m st).2.

(** What resolving prompts may do to the database: the bulk tables stay,
    versions and audit rows are only added at the end. *)
Definition resolver_db (d d' : database) : Prop :=
  request d' = request d /\
  response d' = response d /\
  properties d' = properties d /\
  prompts_versions d `prefix_of` prompts_versions d' /\
  prompt_input_record d `prefix_of` prompt_input_record d'.

(** What the bulk upserts may do to the database: the prompt tables stay. *)
Definition bulk_db (d d' : database) : Prop :=
  prompt_v2 d' = prompt_v2 d /\
  prompts_versions d' = prompts_versions d /\
  prompt_input_keys d' = prompt_input_keys d /\
  prompt_input_record d' = prompt_input_record d /\
  next_uuid d' = next_uuid d.

(** The statements of [processPrompt]. *)
Definition resolver_statement (s : statement) : bool :=
  match s with
  | SelectPrompt | InsertPrompt | SelectLatestVersion
  | InsertVersion | InsertInputKeys | InsertInputRecord => true
  | _ => false
  end.

(** The events of the loop over the prompts. *)
Definition prompt_event (e : event) : bool :=
  match e with
  | Stmt (AdvisoryXactLock _) | ProcessPrompt _ => true
  | Stmt s => resolver_statement s
  end.

(** What [processPrompt] answers on a record with a template and how it
    leaves the database [d'], from the database [d] it found.  When it
    returns, the record is resolved to a version, minted or the latest one,
    its input keys are recorded and its audit row is added.  When it throws,
    at most the version was added, and the exception is the [TypeError] of
    reading the keys of missing inputs, a statement the server rejected, or
    a lookup of the prompt that found several rows. *)
Definition resolved (fails : nat -> bool) (deepCompare : value -> value -> bool)
    (r : PromptRecord) (d : database) (res : exn + Result string) (d' : database)
  : Prop :=
  let mint := mint_decision deepCompare (latest_version r d) r in
  match res with
  | inr x =>
      x = ok "Prompt processed successfully" /\
      exists version keys,
        Object_keys (member (heliconeTemplate r) "inputs") = inr keys /\
        (if mint then prompts_versions d' = prompts_versions d ++ [minted r d version]
         else prompts_versions d' = prompts_versions d /\
              v_id <$> latest_version r d = Some version) /\
        prompt_input_record d' = prompt_input_record d ++ [audit_row r version] /\
        prompt_input_keys d' =
          prompt_input_keys d ∪ list_to_set ((fun k => (k, version)) <$> keys)
  | inl e =>
      (prompts_versions d' = prompts_versions d \/
       mint = true /\
       exists version, prompts_versions d' = prompts_versions d ++ [minted r d version]) /\
      prompt_input_record d' = prompt_input_record d /\
      (e = TypeError /\
       Object_keys (member (heliconeTemplate r) "inputs") = inl TypeError \/
       (exists n, e = DbError n /\ fails n = true) \/
       e = QueryResultError /\
       (1 < length (select_prompt (orgId r) (promptId r) d))%nat)
  end.

(** The state in which [processPrompt] is entered for [r]: the lock was
    taken and the call is traced. *)
Definition entered (r : PromptRecord) (st : txstate) : txstate :=
  TxState (tx_db st) (S (tx_issued st))
    (tx_trace st ++ [Stmt (AdvisoryXactLock (promptId r)); ProcessPrompt r]).

(** A statement of [processPrompt]. *)
Definition resolver_event (e : event) : Prop :=
  exists s, e = Stmt s /\ resolver_statement s = true.

(** One of the bulk statements, sent for rows the payload has. *)
Definition bulk_event (payload : BatchPayload) (e : event) : Prop :=
  e = Stmt InsertRequest /\ requests payload <> [] \/
  e = Stmt InsertResponse /\ responses payload <> [] \/
  e = Stmt InsertProperties /\ properties_in payload <> [].

(** The template of a record names no inputs. *)
Definition lacks_inputs (r : PromptRecord) : Prop :=
  truthy (heliconeTemplate r) = true /\
  member (heliconeTemplate r) "inputs" = VUndefined.

(** The state after a bulk step that did not fail: as before when there
    were no rows, else after the statement and its upsert. *)
Definition after_bulk (s : statement) (f : database -> database) (es : list entry)
    (st : txstate) : txstate :=
  if decide (es = []) then st else with_db (f (tx_db st)) (sent s st).

(** What the callback of the transaction answers and the state [st']
    it leaves, from the state [st] it starts in: the bulk steps lead to a
    state [st_b], from which the loop over the sorted prompts runs. *)
Definition transacted (fails : nat -> bool) (deepCompare : value -> value -> bool)
    (payload : BatchPayload) (st : txstate) (res : exn + unit) (st' : txstate) : Prop :=
  let sorted := Array_sort byCreatedAt (prompts payload) in
  exists st_b loop,
    evolves bulk_db (bulk_event payload) st st_b /\
    tx_trace st' = tx_trace st_b ++ loop /\
    Forall (fun e => prompt_event e = true) loop /\
    steps_of loop `prefix_of` prompt_steps sorted /\
    match res with
    | inl _ => True
    | inr x =>
        steps_of loop = prompt_steps sorted /\
        request (tx_db st_b) =
          upsert requestColumns (requests payload) (request (tx_db st)) /\
        response (tx_db st_b) =
          upsert responseColumns (responses payload) (response (tx_db st)) /\
        properties (tx_db st_b) =
          upsert propertiesColumns (properties_in payload) (properties (tx_db st)) /\
        for_prompts fails deepCompare sorted st_b = (inr x, st')
    end.

(** *** What a call keeps *)




(** Nothing is deleted: the rows of the bulk tables keep their places, the
    prompt tables grow at the end and input keys are only added. *)
Definition grows (d d' : database) : Prop :=
  row_id <$> request d `prefix_of` row_id <$> request d' /\
  row_id <$> response d `prefix_of` row_id <$> response d' /\
  row_id <$> properties d `prefix_of` row_id <$> properties d' /\
  prompt_v2 d `prefix_of` prompt_v2 d' /\
  prompts_versions d `prefix_of` prompts_versions d' /\
  prompt_input_keys d ⊆ prompt_input_keys d' /\
  prompt_input_record d `prefix_of` prompt_input_record d'.

(** One of the three bulk statements. *)
Definition bulk_statement (s : statement) : bool :=
  match s with
  | InsertRequest | InsertResponse | InsertProperties => true
  | _ => false
  end.



(** No prompt has two rows. *)
Definition prompts_unique (d : database) : Prop :=
  forall org pid, (length (select_prompt org pid d) <= 1)%nat.

(** No two versions of a prompt have the same major version. *)
Definition majors_unique (d : database) : Prop :=
  forall org p,
    NoDup (v_major_version <$>
             filter (fun v => v_organization v = org /\ v_prompt_v2 v = p)
               (prompts_versions d)).

(** The payload as the call leaves it to its caller: the sort is in place. *)
Definition sorted_in_place (payload : BatchPayload) : BatchPayload :=
  {| requests := requests payload;
     responses := responses payload;
     properties_in := properties_in payload;
     prompts := Array_sort byCreatedAt (prompts payload) |}.

End LogStore.

(** Modelled from the spec: [deepCompare] of [utils/helpers], whose code is
    not part of the sources at hand.  The specification asks for a canonical
    structural equality: recursive, insensitive to the order of the keys of
    a mapping, exact on scalars and on ordered sequences. *)
Fixpoint deepCompare_spec (a b : value) {struct a} : bool :=
  match a, b with
  | VUndefined, VUndefined => true
  | VNull, VNull => true
  | VBool x, VBool y => Bool.eqb x y
  | VNum x, VNum y => PrimFloat.eqb x y
  | VStr x, VStr y => String.eqb x y
  | VArr xs, VArr ys =>
      (fix items (xs ys : list value) {struct xs} : bool :=
         match xs, ys with
         | [], [] => true
         | x :: xs', y :: ys' => deepCompare_spec x y && items xs' ys'
         | _, _ => false
         end) xs ys
  | VObj o, VObj p =>
      (length o =? length p)%nat
      && (fix fields (o : obj) {struct o} : bool :=
            match o with
            | [] => true
            | (k, v) :: o' =>
                bool_decide (k ∈ p.*1) && deepCompare_spec v (prop p k) && fields o'
            end) o
  | _, _ => false
  end.

(** ** The batch orchestrator: [LogManager.processLogEntries] *)

Module LogManager.

Section Methods.

(** A captured message, and the state of everything outside the
    orchestrator: the accumulators the handlers fill and the stores behind
    them. *)
Context {Message World : Type}.

(** [authHandler.handle(new HandlerContext(m))]: one run of the chain of
    handlers.  It answers with a result, which the orchestrator drops. *)
Variable handle : Message -> World -> Result string * World.

(** [loggingHandler.handleResults()] and [rateLimitHandler.handleResults()]:
    the two commits, each answering with a result. *)
Variable logHandleResults : World -> Result string * World.
Variable rateLimitHandleResults : World -> Result string * World.

Inductive event :=
| Handle (m : Message)
| ConsoleLog (line : string)
| ConsoleError (line : string)
| LogCommit
| RateLimitCommit.

(** Truthiness of a [string | null]. *)
Definition present (o : option string) : bool :=
  match o with
  | Some s => negb (String.eqb s "")
  | None => false
  end.

(** A [string | null] inside a template literal. *)
Definition interpolate (o : option string) : string :=
  match o with
  | Some s => s
  | None => "null"
  end.

(** [await Promise.all(logMessages.map(...))]: every run has settled when
    it returns.  The runs are taken one after the other, in the order they
    are started. *)
Definition run_all (logMessages : list Message) (w : World) : World :=
  foldl (fun w m => (handle m w).2) w logMessages.

Definition processLogEntries (logMessages : list Message) (batchId : string)
    (w : World) : list event * World :=
  let w := run_all logMessages w in
  let started := Handle <$> logMessages in
  let finished := [ConsoleLog ("Finished processing batch " +:+ batchId)] in
  let '(upsertResult, w) := logHandleResults w in
  let upsertFailed :=
    if present (error upsertResult) then
      [ConsoleError ("Error inserting logs: " +:+ interpolate (error upsertResult)
                     +:+ " for batch " +:+ batchId)]
    else [] in
  let '(rateLimitResult, w) := rateLimitHandleResults w in
  let rateLimitFailed :=
    if present (error rateLimitResult) || negb (present (data rateLimitResult)) then
      [ConsoleError ("Error inserting rate limits: "
                     +:+ interpolate (error rateLimitResult)
                     +:+ " for batch " +:+ batchId)]
    else [] in
  (started ++ finished ++ [LogCommit] ++ upsertFailed
     ++ [RateLimitCommit] ++ rateLimitFailed, w).

(** The result the log commit answers with in [processLogEntries]. *)
Definition upsertResult_of (logMessages : list Message) (w : World) : Result string :=
  (logHandleResults (run_all logMessages w)).1.

(** The result the rate-limit commit answers with in [processLogEntries]. *)
Definition rateLimitResult_of (logMessages : list Message) (w : World) : Result string :=
  (rateLimitHandleResults (logHandleResults (run_all logMessages w)).2).1.

End Methods.

End LogManager.

(** ** Sample data *)

Module Sample.

Import LogStore.

(** No statement is rejected. *)
Definition no_faults (n : nat) : bool := false.

Definition template (text : string) : value :=
  VObj [("template", VStr text); ("inputs", VObj [("name", VStr "Ada")])].

Definition record (request : string) (text : string) (at_ : Z) : PromptRecord :=
  {| promptId := "greeting"; orgId := "org-1"; requestId := request;
     heliconeTemplate := template text; model := Some "claude-3-opus";
     createdAt := at_ |}.

(** A record whose template names no inputs. *)
Definition record_without_inputs : PromptRecord :=
  {| promptId := "greeting"; orgId := "org-1"; requestId := "req-9";
     heliconeTemplate := VObj [("template", VStr "Hello")];
     model := None; createdAt := 1500 |}.

Definition empty_db : database := Database [] [] [] [] [] ∅ [] 0.

(** The prompt "greeting" with its version 0, minted at time 1000. *)
Definition version0 : version_row :=
  VersionRow 1 0 "org-1" 0 0 (template "Hello {{name}}") (Some "claude-3-opus") 1000.

Definition one_version_db : database :=
  Database [] [] [] [PromptRow 0 "greeting" "org-1" 1000] [version0]
    {[ ("name", 1%N) ]}
    [InputRecordRow (VObj [("name", VStr "Ada")]) "req-1" 1 1000] 2.


(** A request row as a batch proposes it. *)
Definition request_entry (id body : string) : entry :=
  Entry id [("id", VStr id); ("body", VStr body); ("model", VStr "claude-3-opus")].

Definition payload_of (rs : list entry) (ps : list PromptRecord) : BatchPayload :=
  {| requests := rs; responses := []; properties_in := []; prompts := ps |}.

Definition start (d : database) : txstate := TxState d 0 [].


(** A database in which the prompt "greeting" of "org-1" has two rows. *)
Definition two_prompts_db : database :=
  Database [] [] []
    [PromptRow 0 "greeting" "org-1" 1000; PromptRow 5 "greeting" "org-1" 1200]
    [] ∅ [] 6.

End Sample.

(** * Properties *)

(** ** The chat proxy *)

Lemma prop_absent (o : obj) (k : string) : k ∉ o.*1 -> prop o k = VUndefined.
Proof.
  induction o as [|[k' v] o IH]; [done |].
  cbn. intros [Hk Ho]%not_elem_of_cons.
  destruct (String.eqb_spec k' k) as [-> | _]; [done | by apply IH].
Qed.

(** C8: a request whose body has no [temperature] or no [model] is answered
    with status 400 at once: the only other thing the handler has done is to
    read the session, it makes no call to the model provider and has no
    effect that stores anything. *)
Theorem handler_missing_field_400 (DEMO_EMAIL : string) (session : option Chat.User)
    (provider : Chat.CreateParams -> string + value) (body : obj) :
  "temperature" ∉ body.*1 \/ "model" ∉ body.*1 ->
  Chat.handler DEMO_EMAIL session provider body =
    [Chat.GetUser;
     Chat.Respond 400
       {| Chat.reply_error := Some "Bad request - missing required body parameters";
          Chat.reply_data := None |}] /\
  Chat.statuses (Chat.handler DEMO_EMAIL session provider body) = [400] /\
  Chat.provider_calls (Chat.handler DEMO_EMAIL session provider body) = [].
Proof.
  intros Habsent.
  assert (Hguard : negb (truthy (prop body "temperature"))
                   || negb (truthy (prop body "model")) = true).
  { destruct Habsent as [H | H]; rewrite (prop_absent _ _ H); cbn;
      [reflexivity | apply orb_true_r]. }
  unfold Chat.handler. rewrite Hguard. repeat split.
Qed.

Lemma handler_missing_field_400_witness :
  Chat.statuses
    (Chat.handler "demo@helicone.ai" None (fun _ => inl "unreachable")
       [("temperature", VNum 1%float); ("messages", VArr [])]) = [400].
Proof.
  apply (handler_missing_field_400 "demo@helicone.ai" None
           (fun _ => inl "unreachable")
           [("temperature", VNum 1%float); ("messages", VArr [])]).
  right. vm_compute. intros H. repeat (apply elem_of_cons in H as [H | H]; [discriminate |]).
  by apply elem_of_nil in H.
Defined.

(** C9: every request that passes validation and authorization leads to
    exactly one call to the model provider, and that call names the model
    "claude-3-opus-20240229" whatever the body gave as [model]; the body's
    [temperature], [maxTokens] and [messages] are passed on. *)
Theorem handler_model_is_fixed (DEMO_EMAIL : string) (session : option Chat.User)
    (provider : Chat.CreateParams -> string + value) (body : obj) :
  Chat.accepted DEMO_EMAIL session body ->
  exists p,
    Chat.provider_calls (Chat.handler DEMO_EMAIL session provider body) = [p] /\
    Chat.cp_model p = "claude-3-opus-20240229" /\
    Chat.cp_temperature p = prop body "temperature" /\
    Chat.cp_max_tokens p = prop body "maxTokens" /\
    Chat.cp_messages p = prop body "messages".
Proof.
  intros (Ht & Hm & u & -> & Hdemo).
  unfold Chat.handler. rewrite Ht, Hm. cbn [negb orb].
  destruct (decide (Chat.user_email u = Some DEMO_EMAIL)) as [Heq | _];
    [contradiction |].
  cbv zeta. destruct (provider _);
    (eexists; split; [reflexivity | repeat split]).
Qed.

Lemma handler_model_is_fixed_witness :
  exists p,
    Chat.provider_calls
      (Chat.handler "demo@helicone.ai"
         (Some {| Chat.user_id := "u1"; Chat.user_email := Some "dev@example.com" |})
         (fun _ => inr VNull)
         [("temperature", VNum 1%float); ("model", VStr "gpt-4")]) = [p] /\
    Chat.cp_model p = "claude-3-opus-20240229".
Proof.
  destruct (handler_model_is_fixed "demo@helicone.ai"
              (Some {| Chat.user_id := "u1"; Chat.user_email := Some "dev@example.com" |})
              (fun _ => inr VNull)
              [("temperature", VNum 1%float); ("model", VStr "gpt-4")])
    as (p & Hcalls & Hmodel & _).
  - repeat split; try reflexivity.
    eexists. split; [reflexivity | discriminate].
  - exists p. split; assumption.
Defined.

(** ** The orchestrator *)


(** ** The log store *)

Import LogStore.

(** *** The sort *)

Lemma sort_insert_perm {A} (cmp : A -> A -> Z) (x : A) (l : list A) :
  sort_insert cmp x l ≡ₚ x :: l.
Proof.
  induction l as [|y l IH]; cbn; [reflexivity |].
  destruct (0 <? cmp x y); [| reflexivity].
  rewrite IH. apply Permutation_swap.
Qed.

Lemma Array_sort_perm {A} (cmp : A -> A -> Z) (l : list A) :
  Array_sort cmp l ≡ₚ l.
Proof.
  induction l as [|x l IH]; cbn; [reflexivity |].
  fold (Array_sort cmp l). rewrite sort_insert_perm. by f_equiv.
Qed.

(** On two records the comparator is positive exactly when the first is
    the younger one. *)
Lemma byCreatedAt_pos (a b : PromptRecord) :
  (0 <? byCreatedAt a b) = (createdAt b <? createdAt a).
Proof.
  unfold byCreatedAt, date_truthy. cbn [andb].
  destruct (createdAt a <? createdAt b) eqn:Hlt;
    [| destruct (createdAt a >? createdAt b) eqn:Hgt]; cbn; lia.
Qed.

(** The comparator is the comparison of the two times, so it is a
    consistent ordering. *)
Lemma byCreatedAt_compare (a b : PromptRecord) :
  byCreatedAt a b =
    match createdAt a ?= createdAt b with
    | Lt => -1
    | Eq => 0
    | Gt => 1
    end.
Proof.
  unfold byCreatedAt, date_truthy. cbn [andb].
  destruct (Z.compare_spec (createdAt a) (createdAt b)) as [Heq | Hlt | Hgt].
  - by rewrite Heq, Z.ltb_irrefl, Z.gtb_ltb, Z.ltb_irrefl.
  - by rewrite (proj2 (Z.ltb_lt _ _) Hlt).
  - rewrite (proj2 (Z.ltb_ge _ _)) by lia.
    by rewrite Z.gtb_ltb, (proj2 (Z.ltb_lt _ _) Hgt).
Qed.

Lemma sort_insert_sorted (x : PromptRecord) (l : list PromptRecord) :
  StronglySorted older_or_equal l ->
  StronglySorted older_or_equal (sort_insert byCreatedAt x l).
Proof.
  induction 1 as [|y l Hl IH Hy]; cbn [sort_insert].
  - repeat constructor.
  - rewrite byCreatedAt_pos.
    destruct (createdAt y <? createdAt x) eqn:Hlt.
    + constructor; [assumption |].
      rewrite sort_insert_perm. constructor; [unfold older_or_equal; lia | assumption].
    + constructor; [by constructor |].
      constructor; [unfold older_or_equal; lia |].
      eapply Forall_impl; [exact Hy |]. unfold older_or_equal. intros; lia.
Qed.

Lemma Array_sort_sorted (l : list PromptRecord) :
  StronglySorted older_or_equal (Array_sort byCreatedAt l).
Proof.
  induction l as [|x l IH]; cbn [Array_sort foldr]; [constructor |].
  by apply sort_insert_sorted.
Qed.



(** *** The upsert *)





Lemma upsert_row_ids (cs : list string) (tbl : list row) (e : entry) :
  row_id <$> upsert_row cs tbl e =
    if decide (entry_id e ∈ row_id <$> tbl) then row_id <$> tbl
    else (row_id <$> tbl) ++ [entry_id e].
Proof.
  unfold upsert_row. case_decide.
  - rewrite <- list_fmap_compose. apply list_fmap_ext.
    intros _ r _. cbn. by case_decide.
  - by rewrite fmap_app.
Qed.








(** A proposal under a key the table has leaves the number of rows as it
    is; one under a new key adds a row. *)
Lemma upsert_row_length (cs : list string) (tbl : list row) (e : entry) :
  length (upsert_row cs tbl e) =
    if decide (entry_id e ∈ row_id <$> tbl) then length tbl else S (length tbl).
Proof.
  unfold upsert_row. case_decide.
  - by rewrite length_fmap.
  - rewrite length_app. cbn. lia.
Qed.

(** *** The transaction monad *)

Lemma wp_ret {A} (x : A) (Q : exn + A -> txstate -> Prop) (st : txstate) :
  Q (inr x) st -> wp (ret x) Q st.
Proof. done. Qed.

Lemma wp_raise {A} (e : exn) (Q : exn + A -> txstate -> Prop) (st : txstate) :
  Q (inl e) st -> wp (raise e) Q st.
Proof. done. Qed.

Lemma wp_lift {A} (r : exn + A) (Q : exn + A -> txstate -> Prop) (st : txstate) :
  Q r st -> wp (lift r) Q st.
Proof. done. Qed.

Lemma wp_bind {A B} (m : Tx A) (k : A -> Tx B) (Q : exn + B -> txstate -> Prop)
    (st : txstate) :
  wp m (fun r st' =>
          match r with
          | inr x => wp (k x) Q st'
          | inl e => Q (inl e) st'
          end) st ->
  wp (bind m k) Q st.
Proof.
  unfold wp, bind. destruct (m st) as [[e | x] st']; cbn; done.
Qed.

Lemma wp_run_on_db {A} (f : database -> A * database)
    (Q : exn + A -> txstate -> Prop) (st : txstate) :
  Q (inr (f (tx_db st)).1) (with_db (f (tx_db st)).2 st) ->
  wp (run_on_db f) Q st.
Proof.
  unfold wp, run_on_db, with_db. by destruct (f (tx_db st)).
Qed.

Lemma wp_log_event (e : event) (Q : exn + unit -> txstate -> Prop) (st : txstate) :
  Q (inr tt) (TxState (tx_db st) (tx_issued st) (tx_trace st ++ [e])) ->
  wp (log_event e) Q st.
Proof. done. Qed.

(** *** Frames *)

#[local] Instance resolver_db_preorder : PreOrder resolver_db.
Proof.
  split.
  - intros d. by repeat split.
  - intros d1 d2 d3 (H1 & H2 & H3 & H4 & H5) (H1' & H2' & H3' & H4' & H5').
    repeat split; try congruence; by etrans.
Qed.

#[local] Instance bulk_db_preorder : PreOrder bulk_db.
Proof.
  split.
  - intros d. by repeat split.
  - intros d1 d2 d3 (H1 & H2 & H3 & H4 & H5) (H1' & H2' & H3' & H4' & H5').
    repeat split; congruence.
Qed.

Section Frames.

Context (D : relation database) `{!PreOrder D} (P : event -> Prop).

Lemma evolves_refl (st : txstate) : evolves D P st st.
Proof. split; [reflexivity |]. exists []. by rewrite app_nil_r. Qed.

Lemma evolves_trans (st1 st2 st3 : txstate) :
  evolves D P st1 st2 -> evolves D P st2 st3 -> evolves D P st1 st3.
Proof.
  intros (Hd & evs & Htr & Hevs) (Hd' & evs' & Htr' & Hevs').
  split; [by etrans |].
  exists (evs ++ evs'). split; [by rewrite Htr', Htr, app_assoc |].
  by apply Forall_app.
Qed.

Lemma evolves_sent (s : statement) (st : txstate) :
  P (Stmt s) -> evolves D P st (sent s st).
Proof.
  intros Hs. split; [reflexivity |]. exists [Stmt s]. split; [done |].
  by constructor.
Qed.

Lemma evolves_with_db (d : database) (st : txstate) :
  D (tx_db st) d -> evolves D P st (with_db d st).
Proof.
  intros Hd. split; [done |]. exists []. by rewrite app_nil_r.
Qed.

Lemma preserves_ret {A} (x : A) : preserves D P (ret x).
Proof. intros st. apply evolves_refl. Qed.

Lemma preserves_raise {A} (e : exn) : preserves D P (@raise A e).
Proof. intros st. apply evolves_refl. Qed.

Lemma preserves_lift {A} (r : exn + A) : preserves D P (lift r).
Proof. intros st. apply evolves_refl. Qed.

Lemma preserves_bind {A B} (m : Tx A) (k : A -> Tx B) :
  preserves D P m -> (forall x, preserves D P (k x)) -> preserves D P (bind m k).
Proof.
  intros Hm Hk st. unfold bind. specialize (Hm st).
  destruct (m st) as [[e | x] st']; [done |].
  eapply evolves_trans; [exact Hm | apply Hk].
Qed.

Lemma preserves_run_on_db {A} (f : database -> A * database) :
  (forall d, D d (f d).2) -> preserves D P (run_on_db f).
Proof.
  intros Hf st. unfold run_on_db. specialize (Hf (tx_db st)).
  destruct (f (tx_db st)) as [x d]. by apply (evolves_with_db d st).
Qed.

Lemma preserves_log_event (e : event) : P e -> preserves D P (log_event e).
Proof.
  intros He st. split; [reflexivity |]. exists [e]. split; [done |]. by constructor.
Qed.

Section Statements.

Variable fails : nat -> bool.

Lemma preserves_issue (s : statement) : P (Stmt s) -> preserves D P (issue fails s).
Proof.
  intros Hs st. unfold issue.
  destruct (fails (tx_issued st)); by apply evolves_sent.
Qed.

Lemma preserves_t_none (s : statement) (f : database -> database) :
  P (Stmt s) -> (forall d, D d (f d)) -> preserves D P (t_none fails s f).
Proof.
  intros Hs Hf. apply preserves_bind; [by apply preserves_issue |].
  intros _. by apply preserves_run_on_db.
Qed.

Lemma preserves_t_one {A} (s : statement) (f : database -> A * database) :
  P (Stmt s) -> (forall d, D d (f d).2) -> preserves D P (t_one fails s f).
Proof.
  intros Hs Hf. apply preserves_bind; [by apply preserves_issue |].
  intros _. by apply preserves_run_on_db.
Qed.

Lemma preserves_t_oneOrNone {A} (s : statement) (q : database -> list A) :
  P (Stmt s) -> preserves D P (t_oneOrNone fails s q).
Proof.
  intros Hs. apply preserves_bind; [by apply preserves_issue |].
  intros _. apply preserves_bind; [by apply preserves_run_on_db |].
  intros [|x [|y rows]];
    [apply preserves_ret | apply preserves_ret | apply preserves_raise].
Qed.

End Statements.

End Frames.

Ltac preserve :=
  repeat first
    [ match goal with |- PreOrder _ => apply _ end
    | progress intros
    | apply preserves_ret | apply preserves_raise | apply preserves_lift
    | apply preserves_t_oneOrNone
    | apply preserves_t_one
    | apply preserves_t_none
    | apply preserves_log_event
    | apply preserves_bind
    | match goal with
      | |- preserves _ _ (match ?x with _ => _ end) => destruct x
      end ].

(** *** The resolver and the loop *)

Section Transactions.

Variable fails : nat -> bool.
Variable deepCompare : value -> value -> bool.

Lemma wp_issue (s : statement) (Q : exn + unit -> txstate -> Prop) (st : txstate) :
  (fails (tx_issued st) = true -> Q (inl (DbError (tx_issued st))) (sent s st)) ->
  (fails (tx_issued st) = false -> Q (inr tt) (sent s st)) ->
  wp (issue fails s) Q st.
Proof.
  unfold wp, issue, sent. destruct (fails (tx_issued st)); cbn; auto.
Qed.

Lemma wp_t_none (s : statement) (f : database -> database)
    (Q : exn + unit -> txstate -> Prop) (st : txstate) :
  (fails (tx_issued st) = true -> Q (inl (DbError (tx_issued st))) (sent s st)) ->
  (fails (tx_issued st) = false -> Q (inr tt) (with_db (f (tx_db st)) (sent s st))) ->
  wp (t_none fails s f) Q st.
Proof.
  intros Hfail Hok. unfold t_none. apply wp_bind, wp_issue; [done |].
  intros Hf. by apply wp_run_on_db, Hok.
Qed.

Lemma wp_t_one {A} (s : statement) (f : database -> A * database)
    (Q : exn + A -> txstate -> Prop) (st : txstate) :
  (fails (tx_issued st) = true -> Q (inl (DbError (tx_issued st))) (sent s st)) ->
  (fails (tx_issued st) = false ->
   Q (inr (f (tx_db st)).1) (with_db (f (tx_db st)).2 (sent s st))) ->
  wp (t_one fails s f) Q st.
Proof.
  intros Hfail Hok. unfold t_one. apply wp_bind, wp_issue; [done |].
  intros Hf. by apply wp_run_on_db, Hok.
Qed.

Lemma wp_t_oneOrNone {A} (s : statement) (q : database -> list A)
    (Q : exn + option A -> txstate -> Prop) (st : txstate) :
  (fails (tx_issued st) = true -> Q (inl (DbError (tx_issued st))) (sent s st)) ->
  (fails (tx_issued st) = false ->
   match q (tx_db st) with
   | [] => Q (inr None) (sent s st)
   | [x] => Q (inr (Some x)) (sent s st)
   | _ :: _ :: _ => Q (inl QueryResultError) (sent s st)
   end) ->
  wp (t_oneOrNone fails s q) Q st.
Proof.
  intros Hfail Hok. unfold t_oneOrNone. apply wp_bind, wp_issue; [done |].
  intros Hf. specialize (Hok Hf). apply wp_bind, wp_run_on_db. cbn.
  destruct (q (tx_db st)) as [|x [|y rows]]; done.
Qed.

(** The latest version of a prompt is read from the versions alone. *)
Lemma select_latest_version_ext (org : string) (p : uuid) (d d' : database) :
  prompts_versions d' = prompts_versions d ->
  select_latest_version org p d' = select_latest_version org p d.
Proof. unfold select_latest_version. by intros ->. Qed.

(** What [processPrompt] does with a record that has a template. *)
Lemma processPrompt_resolved (r : PromptRecord) (st : txstate) :
  truthy (heliconeTemplate r) = true ->
  wp (processPrompt fails deepCompare r)
    (fun res st' => resolved fails deepCompare r (tx_db st) res (tx_db st')) st.
Proof.
  intros Htpl. unfold processPrompt. rewrite Htpl. cbn [negb].
  set (d := tx_db st).
  set (Q := fun (res : exn + Result string) (st' : txstate) =>
              resolved fails deepCompare r d res (tx_db st')).
  lazymatch goal with
  | |- wp (bind _ (fun found => bind _ (fun existingPrompt =>
             bind _ (fun existingPromptVersion => bind _ ?K)))) _ _ =>
      set (tail := K)
  end.
  assert (Htail : forall st2 version,
            prompt_input_record (tx_db st2) = prompt_input_record d ->
            prompt_input_keys (tx_db st2) = prompt_input_keys d ->
            (if mint_decision deepCompare (latest_version r d) r
             then prompts_versions (tx_db st2) = prompts_versions d ++ [minted r d version]
             else prompts_versions (tx_db st2) = prompts_versions d /\
                  v_id <$> latest_version r d = Some version) ->
            wp (tail (Some version)) Q st2).
  { intros st2 version Hr Hk Hv. subst tail. cbv beta.
    assert (Herr : prompts_versions (tx_db st2) = prompts_versions d \/
              mint_decision deepCompare (latest_version r d) r = true /\
              exists version,
                prompts_versions (tx_db st2) = prompts_versions d ++ [minted r d version]).
    { destruct (mint_decision deepCompare (latest_version r d) r);
        [right; eauto | left; tauto]. }
    apply wp_bind, wp_bind, wp_lift.
    destruct (Object_keys (member (heliconeTemplate r) "inputs")) as [e | keys] eqn:Hkeys.
    { subst Q. cbn. split_and!; [done | done |].
      assert (e = TypeError) as ->; [| by left].
      unfold Object_keys in Hkeys.
      by destruct (member (heliconeTemplate r) "inputs"); simplify_eq. }
    apply wp_bind, wp_t_none.
    { intros Hf. subst Q. cbn. split_and!; [done | done | right; left; eauto]. }
    intros Hf1. apply wp_t_none.
    { intros Hf. subst Q. cbn. split_and!; [done | done | right; left; eauto]. }
    intros Hf2. apply wp_ret. subst Q. cbn. split; [done |].
    exists version, keys. rewrite Hr, Hk. split_and!; done. }
  lazymatch goal with
  | |- wp (bind _ (fun found => bind _ ?K)) _ _ => set (rest := K)
  end.
  assert (Hrest : forall st1,
            prompts_versions (tx_db st1) = prompts_versions d ->
            prompt_input_record (tx_db st1) = prompt_input_record d ->
            prompt_input_keys (tx_db st1) = prompt_input_keys d ->
            wp (rest (prompt_of r d)) Q st1).
  { intros st1 Hv Hr Hk. subst rest. cbv beta.
    apply wp_bind, wp_t_oneOrNone.
    { intros Hf. subst Q. cbn. rewrite Hv, Hr.
      split_and!; [by left | done | right; left; eauto]. }
    intros Hf1.
    rewrite (select_latest_version_ext _ _ _ _ Hv).
    change (select_latest_version (orgId r) (prompt_of r d) d)
      with (latest_version r d).
    destruct (latest_version r d) as [v |] eqn:Hlatest;
      unfold option_list, option_rect; cbv beta iota.
    - assert (Hmint : mint_decision deepCompare (Some v) r
                      = (v_created_at v <=? createdAt r)
                        && negb (deepCompare (v_helicone_template v)
                                   (heliconeTemplate r))) by done.
      destruct ((v_created_at v <=? createdAt r)
                && negb (deepCompare (v_helicone_template v) (heliconeTemplate r))).
      + apply wp_bind, wp_bind, wp_t_one.
        { intros Hf. subst Q. cbn. rewrite Hv, Hr.
          split_and!; [by left | done | right; left; eauto]. }
        intros Hf2. apply wp_ret, Htail; [done | done |].
        rewrite Hmint. cbn. rewrite Hv. unfold minted. by rewrite Hlatest.
      + apply wp_bind, wp_ret, Htail; [done | done |].
        by rewrite Hmint.
    - apply wp_bind, wp_bind, wp_t_one.
      { intros Hf. subst Q. cbn. rewrite Hv, Hr.
        split_and!; [by left | done | right; left; eauto]. }
      intros Hf2. apply wp_ret, Htail; [done | done |].
      cbn. rewrite Hv. unfold minted. by rewrite Hlatest. }
  apply wp_bind, wp_t_oneOrNone.
  { intros Hf. subst Q. cbn. split_and!; [by left | done | right; left; eauto]. }
  intros Hf1. fold d.
  destruct (select_prompt (orgId r) (promptId r) d) as [|p [|p' rows]] eqn:Hsel.
  - apply wp_bind, wp_t_one.
    { intros Hf. subst Q. cbn. split_and!; [by left | done | right; left; eauto]. }
    intros Hf2. cbn [insert_prompt fst snd].
    replace (next_uuid (tx_db (sent SelectPrompt st))) with (prompt_of r d)
      by (unfold prompt_of; by rewrite Hsel).
    by apply Hrest.
  - apply wp_bind, wp_ret.
    replace (p_id p) with (prompt_of r d) by (unfold prompt_of; by rewrite Hsel).
    by apply Hrest.
  - subst Q. cbn. split_and!; [by left | done |].
    right; right. split; [done |]. fold d. rewrite Hsel. cbn. lia.
Qed.

Lemma processPrompt_preserves (r : PromptRecord) :
  preserves resolver_db resolver_event (processPrompt fails deepCompare r).
Proof.
  unfold processPrompt. cbv zeta. preserve.
  all: try (by eexists).
  all: try (repeat split; cbn; try done; by apply prefix_app_r).
Qed.

Lemma preserves_weaken {A} (D : relation database) (P P' : event -> Prop) (m : Tx A) :
  (forall e, P e -> P' e) -> preserves D P m -> preserves D P' m.
Proof.
  intros HP Hm st. destruct (Hm st) as (Hd & evs & Htr & Hevs).
  split; [done |]. exists evs. split; [done |]. by eapply Forall_impl.
Qed.

Lemma for_prompts_preserves (P : event -> Prop) (rs : list PromptRecord) :
  (forall e, prompt_event e = true -> P e) ->
  preserves resolver_db P (for_prompts fails deepCompare rs).
Proof.
  intros HP. induction rs as [|r rs IH]; cbn [for_prompts]; preserve.
  all: try (by apply HP). all: try (by repeat split). all: try done.
  eapply preserves_weaken; [| apply processPrompt_preserves].
  intros e (s & -> & Hs). apply HP. cbn. by destruct s.
Qed.

(** The loop over the prompts, one turn at a time. *)
Lemma for_prompts_cons (r : PromptRecord) (rs : list PromptRecord) (st : txstate) :
  for_prompts fails deepCompare (r :: rs) st =
    if fails (tx_issued st) then
      (inl (DbError (tx_issued st)), sent (AdvisoryXactLock (promptId r)) st)
    else
      match processPrompt fails deepCompare r (entered r st) with
      | (inr _, st') => for_prompts fails deepCompare rs st'
      | (inl e, st') => (inl e, st')
      end.
Proof.
  cbn [for_prompts]. unfold bind at 1. unfold t_none, bind, issue.
  destruct (fails (tx_issued st)); [done |].
  unfold run_on_db, log_event, entered. cbn. by rewrite <- app_assoc.
Qed.

(** What one call of [processPrompt] does, whatever the record. *)
Lemma processPrompt_step (r : PromptRecord) (st : txstate) :
  evolves resolver_db resolver_event st (processPrompt fails deepCompare r st).2 /\
  (truthy (heliconeTemplate r) = true ->
   resolved fails deepCompare r (tx_db st)
     (processPrompt fails deepCompare r st).1
     (tx_db (processPrompt fails deepCompare r st).2)) /\
  (truthy (heliconeTemplate r) = false ->
   processPrompt fails deepCompare r st = (inr (ok "No Helicone template to process"), st)).
Proof.
  split_and!.
  - apply processPrompt_preserves.
  - intros Htpl. by apply processPrompt_resolved.
  - intros Htpl. unfold processPrompt. by rewrite Htpl.
Qed.



(** The statements of the resolver are neither locks nor calls. *)
Lemma steps_of_resolver (evs : list event) :
  Forall resolver_event evs -> steps_of evs = [].
Proof.
  unfold steps_of. induction 1 as [|e evs (s & -> & Hs) _ IH]; [done |].
  rewrite filter_cons, IH. by destruct s.
Qed.

Lemma steps_of_app (tr1 tr2 : list event) :
  steps_of (tr1 ++ tr2) = steps_of tr1 ++ steps_of tr2.
Proof. apply filter_app. Qed.

(** The locks and calls of the loop are those of its records, in their
    order, all of them when the loop comes to its end. *)
Lemma for_prompts_steps (rs : list PromptRecord) (st : txstate) :
  exists evs,
    tx_trace (for_prompts fails deepCompare rs st).2 = tx_trace st ++ evs /\
    steps_of evs `prefix_of` prompt_steps rs /\
    (forall x, (for_prompts fails deepCompare rs st).1 = inr x ->
               steps_of evs = prompt_steps rs).
Proof.
  revert st. induction rs as [|r rs IH]; intros st.
  { exists []. cbn. by rewrite app_nil_r. }
  rewrite for_prompts_cons.
  change (prompt_steps (r :: rs))
    with ([Stmt (AdvisoryXactLock (promptId r)); ProcessPrompt r] ++ prompt_steps rs).
  destruct (fails (tx_issued st)).
  { exists [Stmt (AdvisoryXactLock (promptId r))]. split_and!; [done | | done].
    by apply prefix_cons, prefix_nil. }
  destruct (processPrompt_step r (entered r st))
    as ((_ & evs & Htr & Hevs%steps_of_resolver) & _).
  destruct (processPrompt fails deepCompare r (entered r st)) as [[e | x] st'];
    cbn [fst snd] in *.
  - exists ([Stmt (AdvisoryXactLock (promptId r)); ProcessPrompt r] ++ evs).
    split_and!; [by rewrite Htr, app_assoc | | done].
    rewrite steps_of_app, Hevs, app_nil_r. by apply prefix_app_r.
  - destruct (IH st') as (evs' & Htr' & Hpre & Hall).
    exists ([Stmt (AdvisoryXactLock (promptId r)); ProcessPrompt r] ++ evs ++ evs').
    rewrite !steps_of_app, Hevs, app_nil_l. split_and!.
    + by rewrite Htr', Htr, !app_assoc.
    + by apply prefix_app.
    + intros y Hy. f_equal. by eapply Hall.
Qed.


(** A record whose template names no inputs makes [processPrompt] throw. *)
Lemma processPrompt_lacking (r : PromptRecord) (st : txstate) :
  lacks_inputs r ->
  exists e,
    (processPrompt fails deepCompare r st).1 = inl e /\
    (e = TypeError \/
     (exists n, e = DbError n /\ fails n = true) \/
     e = QueryResultError /\
     (1 < length (select_prompt (orgId r) (promptId r) (tx_db st)))%nat).
Proof.
  intros [Htpl Hinputs].
  pose proof (processPrompt_resolved r st Htpl) as Hres.
  unfold wp in Hres.
  destruct (processPrompt fails deepCompare r st) as [[e | x] st']; cbn in *.
  - exists e. split; [done |].
    destruct Hres as (_ & _ & [[-> _] | [? | ?]]); auto.
  - destruct Hres as (_ & version & keys & Hkeys & _).
    by rewrite Hinputs in Hkeys.
Qed.

Lemma for_prompts_lacking (rs : list PromptRecord) (r : PromptRecord) (st : txstate) :
  r ∈ rs -> lacks_inputs r ->
  exists e, (for_prompts fails deepCompare rs st).1 = inl e.
Proof.
  intros Hin Hr. revert st.
  induction rs as [|r' rs IH]; intros st; [by inversion Hin |].
  rewrite for_prompts_cons.
  destruct (fails (tx_issued st)); [by eexists |].
  destruct (processPrompt fails deepCompare r' (entered r' st)) as [[e | x] st'] eqn:Hrun;
    [by eexists |].
  apply elem_of_cons in Hin as [<- | Hin]; [| by apply IH].
  destruct (processPrompt_lacking r (entered r st) Hr) as (e & He & _).
  by rewrite Hrun in He.
Qed.

(** One of the three bulk steps of the transaction. *)
Lemma wp_bulk_step (s : statement) (f : database -> database) (es : list entry)
    (Q : exn + unit -> txstate -> Prop) (st : txstate) :
  (es <> [] -> fails (tx_issued st) = true ->
   Q (inl (DbError (tx_issued st))) (sent s st)) ->
  (es = [] \/ fails (tx_issued st) = false -> Q (inr tt) (after_bulk s f es st)) ->
  wp (if (0 <? length es)%nat then t_none fails s f else ret tt) Q st.
Proof.
  intros Hfail Hok. unfold after_bulk in Hok. destruct es as [|e es]; cbn [length].
  - apply wp_ret, Hok. by left.
  - change (0 <? S (length es))%nat with true. cbv iota.
    apply wp_t_none; [by apply Hfail |].
    intros Hf. rewrite decide_False in Hok by done. apply Hok. by right.
Qed.

Lemma after_bulk_evolves (payload : BatchPayload) (s : statement)
    (f : database -> database) (es : list entry) (st : txstate) :
  (es <> [] -> bulk_event payload (Stmt s)) ->
  (forall d, bulk_db d (f d)) ->
  evolves bulk_db (bulk_event payload) st (after_bulk s f es st).
Proof.
  intros Hs Hf. unfold after_bulk. case_decide as Hes; [apply evolves_refl; apply _ |].
  eapply evolves_trans; [apply _ | apply evolves_sent; [apply _ | by apply Hs] |].
  by apply evolves_with_db.
Qed.

Lemma transaction_transacted (payload : BatchPayload) (st : txstate) :
  wp (transaction fails deepCompare payload)
    (transacted fails deepCompare payload st) st.
Proof.
  assert (Hstop : forall e st_b,
            evolves bulk_db (bulk_event payload) st st_b ->
            transacted fails deepCompare payload st (inl e) st_b).
  { intros e st_b Hb. exists st_b, []. rewrite app_nil_r.
    split_and!; [done | done | constructor | apply prefix_nil | done]. }
  unfold transaction.
  apply wp_bind, wp_bulk_step.
  { intros Hes Hf. apply Hstop, evolves_sent; [apply _ |]. by left. }
  intros _.
  set (st1 := after_bulk InsertRequest
                (set_request (upsert requestColumns (requests payload)))
                (requests payload) st).
  assert (H1 : evolves bulk_db (bulk_event payload) st st1).
  { apply after_bulk_evolves; [by left | by intros d]. }
  apply wp_bind, wp_bulk_step.
  { intros Hes Hf. apply Hstop. eapply evolves_trans; [apply _ | exact H1 |].
    apply evolves_sent; [apply _ |]. right; by left. }
  intros _.
  set (st2 := after_bulk InsertResponse
                (set_response (upsert responseColumns (responses payload)))
                (responses payload) st1).
  assert (H2 : evolves bulk_db (bulk_event payload) st st2).
  { eapply evolves_trans; [apply _ | exact H1 |].
    apply after_bulk_evolves; [right; by left | by intros d]. }
  apply wp_bind, wp_bulk_step.
  { intros Hes Hf. apply Hstop. eapply evolves_trans; [apply _ | exact H2 |].
    apply evolves_sent; [apply _ |]. right; by right. }
  intros _.
  set (st3 := after_bulk InsertProperties
                (set_properties (upsert propertiesColumns (properties_in payload)))
                (properties_in payload) st2).
  assert (H3 : evolves bulk_db (bulk_event payload) st st3).
  { eapply evolves_trans; [apply _ | exact H2 |].
    apply after_bulk_evolves; [right; by right | by intros d]. }
  assert (Htables :
            request (tx_db st3) =
              upsert requestColumns (requests payload) (request (tx_db st)) /\
            response (tx_db st3) =
              upsert responseColumns (responses payload) (response (tx_db st)) /\
            properties (tx_db st3) =
              upsert propertiesColumns (properties_in payload) (properties (tx_db st))).
  { subst st3 st2 st1. unfold after_bulk.
    repeat case_decide;
      repeat match goal with H : _ = [] |- _ => rewrite H end; done. }
  unfold wp.
  destruct (for_prompts_steps
              (Array_sort byCreatedAt (prompts payload)) st3)
    as (loop & Hloop & Hpre & Hall).
  destruct (for_prompts_preserves
              (fun e => prompt_event e = true)
              (Array_sort byCreatedAt (prompts payload)) (fun _ H => H) st3)
    as (_ & loop' & Hloop' & Hevents).
  assert (loop' = loop) as -> by (eapply app_inv_head; by rewrite <- Hloop, <- Hloop').
  exists st3, loop. split_and!; [done | done | done | done |].
  destruct (for_prompts fails deepCompare _ st3) as [[e | x] st'] eqn:Hrun; [done |].
  split_and!; [by eapply Hall | apply Htables.. | done].
Qed.

(** *** The refinement of the resolution procedure *)

Lemma ensure_prompt_versions (r : PromptRecord) (d : database) :
  prompts_versions (ensure_prompt r d) = prompts_versions d.
Proof.
  unfold ensure_prompt. by destruct (select_prompt (orgId r) (promptId r) d).
Qed.

(** When [processPrompt] returns, the database is the one the procedure of
    the specification gives. *)
Lemma processPrompt_returns (r : PromptRecord) (st : txstate) :
  wp (processPrompt fails deepCompare r)
    (fun res st' =>
       forall x, res = inr x -> resolve deepCompare r (tx_db st) = Some (tx_db st')) st.
Proof.
  unfold processPrompt, resolve.
  destruct (truthy (heliconeTemplate r)) eqn:Htpl; cbn [negb]; [| by apply wp_ret].
  set (d := tx_db st).
  set (Q := fun (res : exn + Result string) (st' : txstate) =>
              forall x, res = inr x ->
                match resolved_version deepCompare r d,
                      Object_keys (member (heliconeTemplate r) "inputs") with
                | Some version, inr keys =>
                    Some (insert_input_record (member (heliconeTemplate r) "inputs")
                            (requestId r) version (createdAt r)
                            (insert_input_keys keys version (with_version deepCompare r d)))
                | _, _ => None
                end = Some (tx_db st')).
  assert (Hthrown : forall e st', Q (inl e) st') by (by intros e st' x).
  lazymatch goal with
  | |- wp (bind _ (fun found => bind _ (fun existingPrompt =>
             bind _ (fun existingPromptVersion => bind _ ?K)))) _ _ =>
      set (tail := K)
  end.
  assert (Htail : forall st2 version,
            tx_db st2 = with_version deepCompare r d ->
            resolved_version deepCompare r d = Some version ->
            wp (tail (Some version)) Q st2).
  { intros st2 version Hdb Hversion. subst tail. cbv beta.
    apply wp_bind, wp_bind, wp_lift.
    destruct (Object_keys (member (heliconeTemplate r) "inputs")) as [e | keys] eqn:Hkeys;
      [apply Hthrown |].
    apply wp_bind, wp_t_none; [intros; apply Hthrown |].
    intros _. apply wp_t_none; [intros; apply Hthrown |].
    intros _. apply wp_ret. intros x _. rewrite Hversion, ?Hkeys. cbn. by rewrite Hdb. }
  lazymatch goal with
  | |- wp (bind _ (fun found => bind _ ?K)) _ _ => set (rest := K)
  end.
  assert (Hrest : forall st1,
            tx_db st1 = ensure_prompt r d ->
            wp (rest (prompt_of r d)) Q st1).
  { intros st1 Hdb. subst rest. cbv beta.
    apply wp_bind, wp_t_oneOrNone; [intros; apply Hthrown |].
    intros _.
    rewrite (select_latest_version_ext _ _ d (tx_db st1))
      by (by rewrite Hdb, ensure_prompt_versions).
    change (select_latest_version (orgId r) (prompt_of r d) d)
      with (latest_version r d).
    destruct (latest_version r d) as [v |] eqn:Hlatest;
      unfold option_list, option_rect; cbv beta iota.
    - assert (Hmint : mint_decision deepCompare (Some v) r
                      = (v_created_at v <=? createdAt r)
                        && negb (deepCompare (v_helicone_template v)
                                   (heliconeTemplate r))) by done.
      destruct ((v_created_at v <=? createdAt r)
                && negb (deepCompare (v_helicone_template v) (heliconeTemplate r))).
      + apply wp_bind, wp_bind, wp_t_one; [intros; apply Hthrown |].
        intros _. apply wp_ret, Htail.
        * unfold with_version, next_major. rewrite Hlatest, Hmint. cbn. by rewrite Hdb.
        * unfold resolved_version. rewrite Hlatest, Hmint. cbn. by rewrite Hdb.
      + apply wp_bind, wp_ret, Htail.
        * unfold with_version. by rewrite Hlatest, Hmint.
        * unfold resolved_version. by rewrite Hlatest, Hmint.
    - apply wp_bind, wp_bind, wp_t_one; [intros; apply Hthrown |].
      intros _. apply wp_ret, Htail.
      * unfold with_version, next_major. rewrite Hlatest. cbn. by rewrite Hdb.
      * unfold resolved_version. rewrite Hlatest. cbn. by rewrite Hdb. }
  apply wp_bind, wp_t_oneOrNone; [intros; apply Hthrown |].
  intros _. fold d.
  destruct (select_prompt (orgId r) (promptId r) d) as [|p [|p' rows]] eqn:Hsel.
  - apply wp_bind, wp_t_one; [intros; apply Hthrown |].
    intros _. cbn [insert_prompt fst snd].
    replace (next_uuid (tx_db (sent SelectPrompt st))) with (prompt_of r d)
      by (unfold prompt_of; by rewrite Hsel).
    apply Hrest. unfold ensure_prompt, prompt_of. by rewrite Hsel.
  - apply wp_bind, wp_ret.
    replace (p_id p) with (prompt_of r d) by (unfold prompt_of; by rewrite Hsel).
    apply Hrest. unfold ensure_prompt. by rewrite Hsel.
  - apply Hthrown.
Qed.

(** When the loop over the prompts comes to its end, the database is the one
    the procedure gives for its records in their order. *)
Lemma for_prompts_returns (rs : list PromptRecord) (st st' : txstate) (x : unit) :
  for_prompts fails deepCompare rs st = (inr x, st') ->
  resolve_all deepCompare rs (tx_db st) = Some (tx_db st').
Proof.
  revert st. induction rs as [|r rs IH]; intros st.
  { unfold for_prompts, ret. by intros ?; simplify_eq. }
  rewrite for_prompts_cons. destruct (fails (tx_issued st)); [done |].
  pose proof (processPrompt_returns r (entered r st)) as Hr. unfold wp in Hr.
  destruct (processPrompt fails deepCompare r (entered r st)) as [[e | y] st1];
    [done |].
  intros Hloop. cbn [resolve_all].
  change (tx_db (entered r st)) with (tx_db st) in Hr.
  rewrite (Hr y eq_refl). by apply IH.
Qed.



(** *** The whole call *)

(** [insertLogBatch], step by step: [BEGIN], the callback, [COMMIT]. *)
Lemma insertLogBatch_unfold (payload : BatchPayload) (d : database) :
  insertLogBatch fails deepCompare payload d =
    if fails 0 then Outcome (err "Failed to insert log batch") d [Stmt Begin]
    else
      match transaction fails deepCompare payload (sent Begin (TxState d 0 [])) with
      | (inl _, st') =>
          Outcome (err "Failed to insert log batch") d (tx_trace st' ++ [Stmt Rollback])
      | (inr _, st') =>
          if fails (tx_issued st') then
            Outcome (err "Failed to insert log batch") d (tx_trace st' ++ [Stmt Commit])
          else
            Outcome (ok "Successfully inserted log batch") (tx_db st')
              (tx_trace st' ++ [Stmt Commit])
      end.
Proof.
  unfold insertLogBatch, db_tx, issue. cbn [tx_issued tx_db tx_trace].
  destruct (fails 0); [done |].
  change (TxState d 1 ([] ++ [Stmt Begin])) with (sent Begin (TxState d 0 [])).
  destruct (transaction fails deepCompare payload (sent Begin (TxState d 0 [])))
    as [[e | x] st']; [done |].
  by destruct (fails (tx_issued st')).
Qed.

(** A call that fails stores nothing. *)
Lemma insertLogBatch_failure (payload : BatchPayload) (d : database) :
  returned (insertLogBatch fails deepCompare payload d) <> ok "Successfully inserted log batch" ->
  returned (insertLogBatch fails deepCompare payload d) = err "Failed to insert log batch" /\
  stored (insertLogBatch fails deepCompare payload d) = d.
Proof.
  rewrite insertLogBatch_unfold. destruct (fails 0); [done |].
  destruct (transaction fails deepCompare payload (sent Begin (TxState d 0 [])))
    as [[e | x] st']; [done |].
  by destruct (fails (tx_issued st')).
Qed.

(** A call that succeeds ran the bulk steps and the whole loop, and stores
    what the loop left. *)
Lemma insertLogBatch_success (payload : BatchPayload) (d : database) :
  returned (insertLogBatch fails deepCompare payload d) = ok "Successfully inserted log batch" ->
  exists st_b st',
    bulk_db d (tx_db st_b) /\
    request (tx_db st_b) = upsert requestColumns (requests payload) (request d) /\
    response (tx_db st_b) = upsert responseColumns (responses payload) (response d) /\
    properties (tx_db st_b) =
      upsert propertiesColumns (properties_in payload) (properties d) /\
    for_prompts fails deepCompare (Array_sort byCreatedAt (prompts payload)) st_b
      = (inr tt, st') /\
    stored (insertLogBatch fails deepCompare payload d) = tx_db st'.
Proof.
  rewrite insertLogBatch_unfold. destruct (fails 0); [done |].
  pose proof (transaction_transacted payload (sent Begin (TxState d 0 []))) as Hrun.
  unfold wp in Hrun.
  destruct (transaction fails deepCompare payload (sent Begin (TxState d 0 [])))
    as [[e | []] st']; [done |].
  destruct (fails (tx_issued st')); [done |]. intros _.
  destruct Hrun as (st_b & loop & [Hdb _] & _ & _ & _ & _ & Hreq & Hresp & Hprop & Hloop).
  by exists st_b, st'.
Qed.

Lemma database_eq (d1 d2 : database) :
  request d1 = request d2 -> response d1 = response d2 ->
  properties d1 = properties d2 -> prompt_v2 d1 = prompt_v2 d2 ->
  prompts_versions d1 = prompts_versions d2 ->
  prompt_input_keys d1 = prompt_input_keys d2 ->
  prompt_input_record d1 = prompt_input_record d2 ->
  next_uuid d1 = next_uuid d2 -> d1 = d2.
Proof. destruct d1, d2. cbn. by intros -> -> -> -> -> -> -> ->. Qed.

(** A call that succeeds stores what the specification's procedure gives:
    the three upserts, then the resolution of the sorted prompts. *)
Lemma insertLogBatch_refines (payload : BatchPayload) (d : database) :
  returned (insertLogBatch fails deepCompare payload d)
    = ok "Successfully inserted log batch" ->
  resolve_all deepCompare (Array_sort byCreatedAt (prompts payload)) (upserted payload d)
    = Some (stored (insertLogBatch fails deepCompare payload d)).
Proof.
  intros Hok.
  destruct (insertLogBatch_success payload d Hok)
    as (st_b & st' & (Hp & Hv & Hk & Hr & Hn) & Hreq & Hresp & Hprop & Hloop & ->).
  replace (upserted payload d) with (tx_db st_b);
    [by eapply for_prompts_returns |].
  by apply database_eq.
Qed.



End Transactions.

(** *** Minting a version *)

Lemma mint_decision_spec (deepCompare : value -> value -> bool)
    (latest : option version_row) (r : PromptRecord) :
  mint_decision deepCompare latest r = true <-> must_mint deepCompare latest r.
Proof.
  unfold mint_decision, must_mint. destruct latest as [v |]; [| split; [by left | done]].
  rewrite andb_true_iff, negb_true_iff, Z.leb_le. split.
  - intros [Hle Hdiff]. right. by exists v.
  - intros [? | (v' & ? & Hle & Hdiff)]; by simplify_eq.
Qed.





(** *** The batch *)

(** C3: a call of [insertLogBatch] always returns, with the success result
    or with the error result.  It returns the error result exactly when
    [BEGIN], a step of the callback or [COMMIT] raised an error, and then the
    database is the one before the call: no row of any table persists.
    Otherwise it returns the success result and the database is the one the
    callback left. *)
Theorem insertLogBatch_all_or_nothing (fails : nat -> bool)
    (deepCompare : value -> value -> bool) (payload : BatchPayload) (d : database) :
  let out := insertLogBatch fails deepCompare payload d in
  let callback := transaction fails deepCompare payload (sent Begin (TxState d 0%nat [])) in
  (fails 0%nat = true \/ (exists e, callback.1 = inl e) \/ fails (tx_issued callback.2) = true ->
   returned out = err "Failed to insert log batch" /\ stored out = d) /\
  (fails 0%nat = false /\ (exists x, callback.1 = inr x) /\ fails (tx_issued callback.2) = false ->
   returned out = ok "Successfully inserted log batch" /\ stored out = tx_db callback.2) /\
  (returned out = err "Failed to insert log batch" -> stored out = d).
Proof.
  intros out callback. subst out callback. rewrite insertLogBatch_unfold.
  destruct (fails 0%nat); [by split_and!; [| intros (? & _) |] |].
  destruct (transaction fails deepCompare payload (sent Begin (TxState d 0%nat [])))
    as [[e | x] st']; cbn [fst snd].
  - split_and!; [done | | done]. by intros (_ & [? ?] & _).
  - destruct (fails (tx_issued st')); split_and!; try done.
    + by intros (_ & _ & ?).
    + by intros [? | [[? ?] | ?]].
Qed.







(** C10: a batch in which some prompt has a template that names no inputs
    fails as a whole: the call returns the error result and stores nothing.
    For such a record [processPrompt] never returns: it throws, and what it
    throws is the [TypeError] of reading the keys of the missing inputs
    unless a statement was rejected before or the lookup of the prompt found
    several rows. *)
Theorem insertLogBatch_missing_inputs (fails : nat -> bool)
    (deepCompare : value -> value -> bool) (payload : BatchPayload) (d : database)
    (r : PromptRecord) :
  r ∈ prompts payload ->
  truthy (heliconeTemplate r) = true ->
  member (heliconeTemplate r) "inputs" = VUndefined ->
  let out := insertLogBatch fails deepCompare payload d in
  returned out = err "Failed to insert log batch" /\
  stored out = d /\
  forall st,
    exists e,
      (processPrompt fails deepCompare r st).1 = inl e /\
      (e = TypeError \/
       (exists n, e = DbError n /\ fails n = true) \/
       e = QueryResultError /\
       (1 < length (select_prompt (orgId r) (promptId r) (tx_db st)))%nat).
Proof.
  intros Hin Htpl Hinputs out.
  assert (Hlacks : lacks_inputs r) by done.
  assert (Hfail : returned out = err "Failed to insert log batch" /\ stored out = d).
  { apply insertLogBatch_failure. intros Hok.
    destruct (insertLogBatch_success fails deepCompare payload d Hok)
      as (st_b & st' & _ & _ & _ & _ & Hloop & _).
    destruct (for_prompts_lacking fails deepCompare
                (Array_sort byCreatedAt (prompts payload)) r st_b) as [e He];
      [by rewrite Array_sort_perm | done |].
    by rewrite Hloop in He. }
  destruct Hfail as [Hreturned Hstored].
  split_and!; [done | done |]. intros st. by apply processPrompt_lacking.
Qed.

Lemma insertLogBatch_missing_inputs_witness :
  returned
    (insertLogBatch Sample.no_faults deepCompare_spec
       (Sample.payload_of [Sample.request_entry "q2" "body"]
          [Sample.record "req-2" "Hi {{name}}" 2000; Sample.record_without_inputs])
       Sample.one_version_db)
  = err "Failed to insert log batch" /\
  stored
    (insertLogBatch Sample.no_faults deepCompare_spec
       (Sample.payload_of [Sample.request_entry "q2" "body"]
          [Sample.record "req-2" "Hi {{name}}" 2000; Sample.record_without_inputs])
       Sample.one_version_db)
  = Sample.one_version_db.
Proof.
  destruct (insertLogBatch_missing_inputs Sample.no_faults deepCompare_spec
              (Sample.payload_of [Sample.request_entry "q2" "body"]
                 [Sample.record "req-2" "Hi {{name}}" 2000;
                  Sample.record_without_inputs])
              Sample.one_version_db Sample.record_without_inputs)
    as (Hreturned & Hstored & _).
  - apply elem_of_cons. right. apply elem_of_cons. by left.
  - reflexivity.
  - reflexivity.
  - split; assumption.
Defined.

(** * Further properties of the code *)

(** ** The chat proxy: every path of the handler *)

(** A request is accepted, or a field is falsy, or the fields are there and
    the session is missing or is the demo account's. *)
Lemma accepted_dec (DEMO_EMAIL : string) (session : option Chat.User) (body : obj) :
  Chat.accepted DEMO_EMAIL session body \/
  (truthy (prop body "temperature") = false \/ truthy (prop body "model") = false) \/
  truthy (prop body "temperature") = true /\ truthy (prop body "model") = true /\
  (session = None \/ exists u, session = Some u /\ Chat.user_email u = Some DEMO_EMAIL).
Proof.
  destruct (truthy (prop body "temperature")) eqn:Ht; [| right; left; by left].
  destruct (truthy (prop body "model")) eqn:Hm; [| right; left; by right].
  destruct session as [u |]; [| right; right; split_and!; [done | done | by left]].
  destruct (decide (Chat.user_email u = Some DEMO_EMAIL)) as [He | He].
  - right; right. split_and!; [done | done |]. right. by exists u.
  - left. split_and!; [done | done |]. by exists u.
Qed.

Lemma handler_rejected (DEMO_EMAIL : string) (session : option Chat.User)
    (provider : Chat.CreateParams -> string + value) (body : obj) :
  truthy (prop body "temperature") = false \/ truthy (prop body "model") = false ->
  Chat.handler DEMO_EMAIL session provider body
  = [Chat.GetUser; Chat.Respond 400 Chat.bad_request].
Proof.
  intros Hfalsy. unfold Chat.handler.
  by destruct Hfalsy as [-> | ->]; rewrite ?orb_true_r.
Qed.

Lemma handler_unauthorized (DEMO_EMAIL : string) (session : option Chat.User)
    (provider : Chat.CreateParams -> string + value) (body : obj) :
  truthy (prop body "temperature") = true -> truthy (prop body "model") = true ->
  session = None \/ (exists u, session = Some u /\ Chat.user_email u = Some DEMO_EMAIL) ->
  Chat.handler DEMO_EMAIL session provider body
  = [Chat.GetUser; Chat.Respond 401 Chat.unauthorized].
Proof.
  intros Ht Hm Hwho. unfold Chat.handler. rewrite Ht, Hm. cbn [negb orb].
  destruct Hwho as [-> | (u & -> & Hdemo)]; [done |].
  by rewrite decide_True.
Qed.

Lemma handler_accepted (DEMO_EMAIL : string) (u : Chat.User)
    (provider : Chat.CreateParams -> string + value) (body : obj) :
  truthy (prop body "temperature") = true -> truthy (prop body "model") = true ->
  Chat.user_email u <> Some DEMO_EMAIL ->
  exists p,
    Chat.cp_metadata_user_id p = Chat.user_id u /\
    Chat.provider_calls (Chat.handler DEMO_EMAIL (Some u) provider body) = [p] /\
    Chat.handler DEMO_EMAIL (Some u) provider body
    = [Chat.GetUser; Chat.MessagesCreate p;
       match provider p with
       | inr completion =>
           Chat.Respond 200
             {| Chat.reply_error := None; Chat.reply_data := Some completion |}
       | inl e =>
           Chat.Respond 500 {| Chat.reply_error := Some e; Chat.reply_data := None |}
       end].
Proof.
  intros Ht Hm Hdemo. unfold Chat.handler. rewrite Ht, Hm. cbn [negb orb].
  rewrite decide_False by done. cbv zeta.
  match goal with |- context [provider ?params] => exists params end.
  split_and!; [done | |]; by destruct (provider _).
Qed.

Lemma not_accepted_falsy (DEMO_EMAIL : string) (session : option Chat.User) (body : obj) :
  truthy (prop body "temperature") = false \/ truthy (prop body "model") = false ->
  ~ Chat.accepted DEMO_EMAIL session body.
Proof. intros Hfalsy (Ht & Hm & _). destruct Hfalsy; congruence. Qed.

Lemma not_accepted_unauthorized (DEMO_EMAIL : string) (session : option Chat.User)
    (body : obj) :
  session = None \/ (exists u, session = Some u /\ Chat.user_email u = Some DEMO_EMAIL) ->
  ~ Chat.accepted DEMO_EMAIL session body.
Proof.
  intros Hwho (_ & _ & u & -> & Hdemo).
  destruct Hwho as [? | (u' & ? & ?)]; by simplify_eq.
Qed.

(** X1: the handler answers 400 exactly when [temperature] or [model] is
    falsy, which a [temperature] of 0 and an empty [model] are, and it does
    so whoever asks: the fields are checked before the session.  It answers
    401 exactly when both fields are truthy and there is no session or the
    session is the demo account's.  The bodies are the fixed ones. *)
Theorem handler_refusals (DEMO_EMAIL : string) (session : option Chat.User)
    (provider : Chat.CreateParams -> string + value) (body : obj) (reply : Chat.Reply) :
  (Chat.Respond 400 reply ∈ Chat.handler DEMO_EMAIL session provider body <->
   (truthy (prop body "temperature") = false \/ truthy (prop body "model") = false) /\
   reply = {| Chat.reply_error := Some "Bad request - missing required body parameters";
              Chat.reply_data := None |}) /\
  (Chat.Respond 401 reply ∈ Chat.handler DEMO_EMAIL session provider body <->
   truthy (prop body "temperature") = true /\
   truthy (prop body "model") = true /\
   (session = None \/
    exists u, session = Some u /\ Chat.user_email u = Some DEMO_EMAIL) /\
   reply = {| Chat.reply_error := Some "Unauthorized"; Chat.reply_data := None |}).
Proof.
  destruct (accepted_dec DEMO_EMAIL session body)
    as [Hacc | [Hfalsy | (Ht & Hm & Hwho)]].
  - pose proof Hacc as (Ht & Hm & u & -> & Hdemo).
    destruct (handler_accepted DEMO_EMAIL u provider body Ht Hm Hdemo)
      as (p & _ & _ & ->).
    rewrite !elem_of_cons, !elem_of_nil. split; split.
    + intros [? | [? | [Hr | []]]]; [done | done |]. by destruct (provider p).
    + intros [[? | ?] _]; congruence.
    + intros [? | [? | [Hr | []]]]; [done | done |]. by destruct (provider p).
    + intros (_ & _ & [? | (u' & ? & ?)] & _); by simplify_eq.
  - rewrite (handler_rejected _ _ _ _ Hfalsy).
    rewrite !elem_of_cons, !elem_of_nil. split; split.
    + intros [? | [[= ->] | []]]; done.
    + intros [_ ->]. right. by left.
    + intros [? | [? | []]]; done.
    + intros (Ht & Hm & _). destruct Hfalsy; congruence.
  - rewrite (handler_unauthorized _ _ _ _ Ht Hm Hwho).
    rewrite !elem_of_cons, !elem_of_nil. split; split.
    + intros [? | [? | []]]; done.
    + intros [[? | ?] _]; congruence.
    + intros [? | [[= ->] | []]]; done.
    + intros (_ & _ & _ & ->). right. by left.
Qed.

(** X2: the handler answers 200 exactly when the request is accepted and
    the call to the provider returns, and the body then carries the
    completion as the provider gave it and no error; it answers 500 exactly
    when the request is accepted and the provider throws, and the body then
    carries the text of what was thrown and no data. *)
Theorem handler_relays_provider (DEMO_EMAIL : string) (session : option Chat.User)
    (provider : Chat.CreateParams -> string + value) (body : obj) (reply : Chat.Reply) :
  (Chat.Respond 200 reply ∈ Chat.handler DEMO_EMAIL session provider body <->
   Chat.accepted DEMO_EMAIL session body /\
   exists p completion,
     Chat.provider_calls (Chat.handler DEMO_EMAIL session provider body) = [p] /\
     provider p = inr completion /\
     reply = {| Chat.reply_error := None; Chat.reply_data := Some completion |}) /\
  (Chat.Respond 500 reply ∈ Chat.handler DEMO_EMAIL session provider body <->
   Chat.accepted DEMO_EMAIL session body /\
   exists p e,
     Chat.provider_calls (Chat.handler DEMO_EMAIL session provider body) = [p] /\
     provider p = inl e /\
     reply = {| Chat.reply_error := Some e; Chat.reply_data := None |}).
Proof.
  destruct (accepted_dec DEMO_EMAIL session body)
    as [Hacc | [Hfalsy | (Ht & Hm & Hwho)]].
  - pose proof Hacc as (Ht & Hm & u & -> & Hdemo).
    destruct (handler_accepted DEMO_EMAIL u provider body Ht Hm Hdemo)
      as (p & _ & -> & ->).
    rewrite !elem_of_cons, !elem_of_nil.
    split; (split; [intros [? | [? | [Hr | []]]]; try discriminate
                   | intros (_ & q & x & [= <-] & Hq & ->)]).
    + split; [done |]. destruct (provider p) as [e | c] eqn:Hp; simplify_eq.
      by exists p, c.
    + rewrite Hq. auto.
    + split; [done |]. destruct (provider p) as [e | c] eqn:Hp; simplify_eq.
      by exists p, e.
    + rewrite Hq. auto.
  - rewrite (handler_rejected _ _ _ _ Hfalsy).
    pose proof (not_accepted_falsy DEMO_EMAIL session body Hfalsy) as Hno.
    rewrite !elem_of_cons, !elem_of_nil.
    split; (split; [intros [? | [? | []]]; discriminate | by intros [? _]]).
  - rewrite (handler_unauthorized _ _ _ _ Ht Hm Hwho).
    pose proof (not_accepted_unauthorized DEMO_EMAIL session body Hwho) as Hno.
    rewrite !elem_of_cons, !elem_of_nil.
    split; (split; [intros [? | [? | []]]; discriminate | by intros [? _]]).
Qed.

(** X3: the handler calls the model provider exactly when the request is
    accepted: never for a request it refuses, so never for the demo account
    or without a session.  A call it makes names the account of the
    session as the user of the completion. *)
Theorem handler_calls_provider_iff (DEMO_EMAIL : string) (session : option Chat.User)
    (provider : Chat.CreateParams -> string + value) (body : obj) :
  (Chat.provider_calls (Chat.handler DEMO_EMAIL session provider body) <> [] <->
   Chat.accepted DEMO_EMAIL session body) /\
  (forall p u,
     p ∈ Chat.provider_calls (Chat.handler DEMO_EMAIL session provider body) ->
     session = Some u -> Chat.cp_metadata_user_id p = Chat.user_id u).
Proof.
  destruct (accepted_dec DEMO_EMAIL session body)
    as [Hacc | [Hfalsy | (Ht & Hm & Hwho)]].
  - pose proof Hacc as (Ht & Hm & u & -> & Hdemo).
    destruct (handler_accepted DEMO_EMAIL u provider body Ht Hm Hdemo)
      as (p & Hid & -> & _). split; [done |].
    intros q u' Hq%list_elem_of_singleton [= <-]. by subst.
  - rewrite (handler_rejected _ _ _ _ Hfalsy). cbn.
    split; [| by intros p u Hp%elem_of_nil].
    split; [done |]. intros Hacc. by apply not_accepted_falsy in Hacc.
  - rewrite (handler_unauthorized _ _ _ _ Ht Hm Hwho). cbn.
    split; [| by intros p u Hp%elem_of_nil].
    split; [done |]. intros Hacc. by apply not_accepted_unauthorized in Hacc.
Qed.

(** X4: whatever the request, the handler reads the session first, makes at
    most one call to the provider, and answers exactly once, as the last
    thing it does, with one of the statuses 200, 400, 401 and 500.  The
    body it sends has either data or an error, never both and never none,
    and it has data exactly when the status is 200. *)
Theorem handler_answers_once (DEMO_EMAIL : string) (session : option Chat.User)
    (provider : Chat.CreateParams -> string + value) (body : obj) :
  exists calls status reply,
    Chat.handler DEMO_EMAIL session provider body
    = Chat.GetUser :: (Chat.MessagesCreate <$> calls) ++ [Chat.Respond status reply] /\
    (length calls <= 1)%nat /\
    status ∈ [200; 400; 401; 500] /\
    (status = 200 <-> Chat.reply_error reply = None) /\
    (Chat.reply_error reply = None <-> Chat.reply_data reply <> None).
Proof.
  destruct (accepted_dec DEMO_EMAIL session body)
    as [Hacc | [Hfalsy | (Ht & Hm & Hwho)]].
  - pose proof Hacc as (Ht & Hm & u & -> & Hdemo).
    destruct (handler_accepted DEMO_EMAIL u provider body Ht Hm Hdemo)
      as (p & _ & _ & ->).
    destruct (provider p) as [e | c].
    + exists [p], 500, {| Chat.reply_error := Some e; Chat.reply_data := None |}.
      split_and!; [done | done | rewrite !elem_of_cons; tauto | done | done].
    + exists [p], 200, {| Chat.reply_error := None; Chat.reply_data := Some c |}.
      split_and!; [done | done | rewrite !elem_of_cons; tauto | done | done].
  - rewrite (handler_rejected _ _ _ _ Hfalsy).
    exists [], 400, Chat.bad_request.
    split_and!; [done | cbn; lia | rewrite !elem_of_cons; tauto | done | done].
  - rewrite (handler_unauthorized _ _ _ _ Ht Hm Hwho).
    exists [], 401, Chat.unauthorized.
    split_and!; [done | cbn; lia | rewrite !elem_of_cons; tauto | done | done].
Qed.

(** ** The orchestrator: what is dropped and what is reported *)

Section Orchestrator.

Context {Message World : Type}.

Lemma run_all_ext (handle handle' : Message -> World -> Result string * World)
    (logMessages : list Message) (w : World) :
  (forall m w, (handle m w).2 = (handle' m w).2) ->
  LogManager.run_all handle logMessages w = LogManager.run_all handle' logMessages w.
Proof.
  intros Hsame. unfold LogManager.run_all. revert w.
  induction logMessages as [|m ms IH]; intros w; [done |].
  cbn. by rewrite Hsame, IH.
Qed.

End Orchestrator.

(** X5: the result a run of the chain answers with is dropped: two chains
    that leave the same state behind, whatever results they answer with,
    make [processLogEntries] do the same and leave the same state.  A run
    that answers with an error neither stops the batch nor is reported. *)
Theorem processLogEntries_drops_handler_results {Message World : Type}
    (handle handle' : Message -> World -> Result string * World)
    (logHandleResults rateLimitHandleResults : World -> Result string * World)
    (logMessages : list Message) (batchId : string) (w : World) :
  (forall m w, (handle m w).2 = (handle' m w).2) ->
  LogManager.processLogEntries handle logHandleResults rateLimitHandleResults
    logMessages batchId w
  = LogManager.processLogEntries handle' logHandleResults rateLimitHandleResults
      logMessages batchId w.
Proof.
  intros Hsame. unfold LogManager.processLogEntries.
  by rewrite (run_all_ext handle handle' logMessages w Hsame).
Qed.

Lemma processLogEntries_drops_handler_results_witness :
  LogManager.processLogEntries (fun (m : string) (w : list string) => (ok "done", m :: w))
    (fun w => (ok "stored", w)) (fun w => (ok "id-1", w)) ["m1"; "m2"] "b7" []
  = LogManager.processLogEntries
      (fun (m : string) (w : list string) => (err "Authentication failed", m :: w))
      (fun w => (ok "stored", w)) (fun w => (ok "id-1", w)) ["m1"; "m2"] "b7" [].
Proof.
  apply (processLogEntries_drops_handler_results
           (fun (m : string) (w : list string) => (ok "done", m :: w))
           (fun (m : string) (w : list string) => (err "Authentication failed", m :: w))).
  reflexivity.
Defined.

(** X6: nothing is written to the error console exactly when the log commit
    answered with no error, or with an empty one, and the rate-limit commit
    answered with no error, or an empty one, and with a non-empty
    identifier.  A rate-limit commit that answers with neither an error nor
    an identifier is reported, and the line gives "null" as the error. *)
Theorem processLogEntries_error_console {Message World : Type}
    (handle : Message -> World -> Result string * World)
    (logHandleResults rateLimitHandleResults : World -> Result string * World)
    (logMessages : list Message) (batchId : string) (w : World) :
  let upsertResult :=
    LogManager.upsertResult_of handle logHandleResults logMessages w in
  let rateLimitResult :=
    LogManager.rateLimitResult_of handle logHandleResults rateLimitHandleResults
      logMessages w in
  let did :=
    (LogManager.processLogEntries handle logHandleResults rateLimitHandleResults
       logMessages batchId w).1 in
  ((forall line, LogManager.ConsoleError line ∉ did) <->
   LogManager.present (error upsertResult) = false /\
   LogManager.present (error rateLimitResult) = false /\
   LogManager.present (data rateLimitResult) = true) /\
  (error rateLimitResult = None ->
   LogManager.present (data rateLimitResult) = false ->
   LogManager.ConsoleError ("Error inserting rate limits: null for batch " +:+ batchId)
     ∈ did).
Proof.
  intros upsertResult rateLimitResult did.
  assert (Hdid : forall line,
            LogManager.ConsoleError line ∈ did <->
            LogManager.present (error upsertResult) = true /\
            line = "Error inserting logs: " +:+ LogManager.interpolate (error upsertResult)
                   +:+ " for batch " +:+ batchId \/
            LogManager.present (error rateLimitResult)
              || negb (LogManager.present (data rateLimitResult)) = true /\
            line = "Error inserting rate limits: "
                   +:+ LogManager.interpolate (error rateLimitResult)
                   +:+ " for batch " +:+ batchId).
  { intros line. subst did upsertResult rateLimitResult.
    unfold LogManager.processLogEntries, LogManager.upsertResult_of,
      LogManager.rateLimitResult_of.
    destruct (logHandleResults (LogManager.run_all handle logMessages w))
      as [upsertResult w1]. cbn [fst snd].
    destruct (rateLimitHandleResults w1) as [rateLimitResult w2]. cbn [fst snd].
    rewrite !elem_of_app, list_elem_of_fmap, !list_elem_of_singleton.
    destruct (LogManager.present (error upsertResult));
      destruct (LogManager.present (error rateLimitResult)
                || negb (LogManager.present (data rateLimitResult)));
      rewrite ?list_elem_of_singleton, ?elem_of_nil; split.
    all: try (intros [(m & ? & _) | [? | [? | [? | [? | ?]]]]]; simplify_eq; tauto).
    all: try (intros [[? ->] | [? ->]]; simplify_eq; tauto). }
  split.
  - split.
    + intros Hnone.
      destruct (LogManager.present (error upsertResult)) eqn:Hlog.
      { exfalso. eapply Hnone, Hdid. by left. }
      destruct (LogManager.present (error rateLimitResult)
                || negb (LogManager.present (data rateLimitResult))) eqn:Hrate.
      { exfalso. eapply Hnone, Hdid. by right. }
      apply orb_false_iff in Hrate as [? ?%negb_false_iff]. done.
    + intros (Hlog & Herr & Hid) line [[? _] | [Hrate _]]%Hdid; [congruence |].
      rewrite Herr, Hid in Hrate. done.
  - intros Herr Hid. apply Hdid. right. rewrite Herr, Hid. done.
Qed.

(** ** The log store: the order of the prompts *)

(** The sort leaves an ascending list as it is. *)
Lemma Array_sort_of_sorted (l : list PromptRecord) :
  StronglySorted older_or_equal l -> Array_sort byCreatedAt l = l.
Proof.
  induction 1 as [|x l Hl IH Hx]; [done |].
  cbn [Array_sort foldr]. fold (Array_sort byCreatedAt l). rewrite IH.
  destruct Hx as [|y l Hxy _]; [done |].
  cbn [sort_insert]. rewrite byCreatedAt_pos.
  unfold older_or_equal in Hxy. by rewrite (proj2 (Z.ltb_ge _ _)) by lia.
Qed.

(** Two ascending lists of the same records are the same list when no two
    records have the same time. *)
Lemma sorted_unique (l l' : list PromptRecord) :
  StronglySorted older_or_equal l -> StronglySorted older_or_equal l' ->
  l ≡ₚ l' -> NoDup (createdAt <$> l) -> l = l'.
Proof.
  intros Hl. revert l'. induction Hl as [|x l Hl IH Hx]; intros l' Hl' Hperm Hnd.
  { by apply Permutation_nil_l in Hperm. }
  destruct Hl' as [|y l' Hl' Hy]; [by apply Permutation_nil_r in Hperm |].
  cbn [fmap list_fmap] in Hnd. apply NoDup_cons in Hnd as [Hfresh Hnd].
  assert (x = y) as <-.
  { assert (Hxin : x ∈ y :: l') by (rewrite <- Hperm; by left).
    assert (Hyin : y ∈ x :: l) by (rewrite Hperm; by left).
    apply elem_of_cons in Hxin as [? | Hxin]; [done |].
    apply elem_of_cons in Hyin as [? | Hyin]; [done |].
    rewrite Forall_forall in Hx, Hy.
    specialize (Hx _ Hyin). specialize (Hy _ Hxin). unfold older_or_equal in Hx, Hy.
    exfalso. apply Hfresh. replace (createdAt x) with (createdAt y) by lia.
    by apply list_elem_of_fmap_2. }
  f_equal. apply IH; [done | by eapply Permutation_cons_inv | done].
Qed.

Lemma Array_sort_arrival_order (l l' : list PromptRecord) :
  l ≡ₚ l' -> NoDup (createdAt <$> l) ->
  Array_sort byCreatedAt l = Array_sort byCreatedAt l'.
Proof.
  intros Hperm Hnd. apply sorted_unique; [apply Array_sort_sorted.. | |].
  - by rewrite !Array_sort_perm.
  - by rewrite Array_sort_perm.
Qed.

(** X7: sorting the prompts a second time changes nothing, and prompts that
    come in ascending order are processed in the order they come in.  The
    sort is in place, so the payload a call leaves to its caller has its
    prompts sorted; a call with that payload does what the call with the
    payload as it came does. *)
Theorem insertLogBatch_sorted_in_place (fails : nat -> bool)
    (deepCompare : value -> value -> bool) (payload : BatchPayload) (d : database) :
  Array_sort byCreatedAt (prompts (sorted_in_place payload))
    = prompts (sorted_in_place payload) /\
  insertLogBatch fails deepCompare (sorted_in_place payload) d
    = insertLogBatch fails deepCompare payload d /\
  (StronglySorted older_or_equal (prompts payload) ->
   sorted_in_place payload = payload).
Proof.
  assert (Hsorted : Array_sort byCreatedAt (prompts (sorted_in_place payload))
                    = prompts (sorted_in_place payload))
    by apply Array_sort_of_sorted, Array_sort_sorted.
  split_and!; [done | |].
  - unfold insertLogBatch, transaction. by rewrite Hsorted.
  - intros Hasc. unfold sorted_in_place. rewrite (Array_sort_of_sorted _ Hasc).
    by destruct payload.
Qed.

(** X8: when no two prompts of a batch have the same [createdAt], the order
    in which they come in does not matter: two payloads with the same rows
    and the same prompts in any two orders are sorted to the same list, so
    the locks are taken in the same order, and the two calls do the same and
    store the same. *)
Theorem insertLogBatch_arrival_order (fails : nat -> bool)
    (deepCompare : value -> value -> bool) (payload payload' : BatchPayload)
    (d : database) :
  requests payload' = requests payload ->
  responses payload' = responses payload ->
  properties_in payload' = properties_in payload ->
  prompts payload' ≡ₚ prompts payload ->
  NoDup (createdAt <$> prompts payload) ->
  Array_sort byCreatedAt (prompts payload') = Array_sort byCreatedAt (prompts payload) /\
  insertLogBatch fails deepCompare payload' d = insertLogBatch fails deepCompare payload d.
Proof.
  intros Hreq Hresp Hprop Hperm Hnd.
  assert (Hsort : Array_sort byCreatedAt (prompts payload')
                  = Array_sort byCreatedAt (prompts payload)).
  { symmetry. by apply Array_sort_arrival_order. }
  split; [done |].
  unfold insertLogBatch, transaction. by rewrite Hreq, Hresp, Hprop, Hsort.
Qed.

Lemma insertLogBatch_arrival_order_witness :
  insertLogBatch Sample.no_faults deepCompare_spec
    (Sample.payload_of []
       [Sample.record "req-2" "Hi {{name}}" 2000; Sample.record "req-3" "Hey {{name}}" 3000])
    Sample.one_version_db
  = insertLogBatch Sample.no_faults deepCompare_spec
      (Sample.payload_of []
         [Sample.record "req-3" "Hey {{name}}" 3000;
          Sample.record "req-2" "Hi {{name}}" 2000])
      Sample.one_version_db.
Proof.
  destruct (insertLogBatch_arrival_order Sample.no_faults deepCompare_spec
              (Sample.payload_of []
                 [Sample.record "req-3" "Hey {{name}}" 3000;
                  Sample.record "req-2" "Hi {{name}}" 2000])
              (Sample.payload_of []
                 [Sample.record "req-2" "Hi {{name}}" 2000;
                  Sample.record "req-3" "Hey {{name}}" 3000])
              Sample.one_version_db)
    as (_ & Hsame).
  - reflexivity.
  - reflexivity.
  - reflexivity.
  - apply Permutation_swap.
  - cbn. apply NoDup_cons. split; [| apply NoDup_singleton].
    intros H%list_elem_of_singleton. discriminate.
  - exact Hsame.
Defined.

(** ** The log store: what a call keeps *)

#[local] Instance grows_preorder : PreOrder grows.
Proof.
  split.
  - intros d. by repeat split.
  - intros d1 d2 d3 (H1 & H2 & H3 & H4 & H5 & H6 & H7)
      (H1' & H2' & H3' & H4' & H5' & H6' & H7').
    split_and!; by etrans.
Qed.

Lemma upsert_row_ids_prefix (cs : list string) (tbl : list row) (e : entry) :
  row_id <$> tbl `prefix_of` row_id <$> upsert_row cs tbl e.
Proof.
  rewrite upsert_row_ids. case_decide; [done | by apply prefix_app_r].
Qed.

Lemma upsert_ids_prefix (cs : list string) (es : list entry) (tbl : list row) :
  row_id <$> tbl `prefix_of` row_id <$> upsert cs es tbl.
Proof.
  unfold upsert. revert tbl. induction es as [|e es IH]; intros tbl; [done |].
  cbn. etrans; [apply (upsert_row_ids_prefix cs tbl e) | apply IH].
Qed.

Lemma select_prompt_grows (org pid : string) (d d' : database) :
  prompt_v2 d `prefix_of` prompt_v2 d' ->
  select_prompt org pid d `prefix_of` select_prompt org pid d'.
Proof.
  intros [k Hk]. unfold select_prompt. rewrite Hk, filter_app. by apply prefix_app_r.
Qed.

(** After the first step of the procedure the lookup of the prompt finds
    the row the record belongs to. *)
Lemma select_prompt_ensure (r : PromptRecord) (d d' : database) :
  prompt_v2 d' = prompt_v2 (ensure_prompt r d) ->
  select_prompt (orgId r) (promptId r) d' =
    match select_prompt (orgId r) (promptId r) d with
    | [] => [PromptRow (next_uuid d) (promptId r) (orgId r) (createdAt r)]
    | rows => rows
    end.
Proof.
  intros Hrows. unfold select_prompt at 1. rewrite Hrows. unfold ensure_prompt.
  destruct (select_prompt (orgId r) (promptId r) d) as [|p rows] eqn:Hsel; [| done].
  cbn [insert_prompt snd prompt_v2]. rewrite filter_app.
  unfold select_prompt in Hsel. rewrite Hsel.
  by rewrite filter_cons, decide_True.
Qed.


Lemma greatest_major_snoc (vs : list version_row) (v : version_row) :
  greatest_major (vs ++ [v]) =
    match greatest_major vs with
    | None => Some v
    | Some b => if v_major_version b <? v_major_version v then Some v else Some b
    end.
Proof. unfold greatest_major. by rewrite foldl_snoc. Qed.

(** The row the lookup of the latest version yields has the highest major
    version, and the lookup yields a row when there is one. *)
Lemma greatest_major_max (vs : list version_row) :
  match greatest_major vs with
  | Some b => forall v, v ∈ vs -> v_major_version v <= v_major_version b
  | None => vs = []
  end.
Proof.
  induction vs as [|w vs IH] using rev_ind; [done |].
  rewrite greatest_major_snoc.
  destruct (greatest_major vs) as [b |].
  - destruct (v_major_version b <? v_major_version w) eqn:Hlt;
      intros v [Hv | ->%list_elem_of_singleton]%elem_of_app;
      try specialize (IH v Hv); lia.
  - subst vs. by intros v ->%list_elem_of_singleton.
Qed.

Lemma with_version_versions (deepCompare : value -> value -> bool)
    (r : PromptRecord) (d : database) :
  prompts_versions (with_version deepCompare r d) =
    if mint_decision deepCompare (latest_version r d) r
    then prompts_versions d ++ [minted r d (next_uuid (ensure_prompt r d))]
    else prompts_versions d.
Proof.
  unfold with_version.
  destruct (mint_decision deepCompare (latest_version r d) r);
    cbn; by rewrite ensure_prompt_versions.
Qed.

Lemma with_version_prompt_v2 (deepCompare : value -> value -> bool)
    (r : PromptRecord) (d : database) :
  prompt_v2 (with_version deepCompare r d) = prompt_v2 (ensure_prompt r d).
Proof.
  unfold with_version. by destruct (mint_decision deepCompare (latest_version r d) r).
Qed.

Lemma with_version_rest (deepCompare : value -> value -> bool)
    (r : PromptRecord) (d : database) :
  prompt_input_keys (with_version deepCompare r d) = prompt_input_keys d /\
  prompt_input_record (with_version deepCompare r d) = prompt_input_record d.
Proof.
  unfold with_version, ensure_prompt.
  by destruct (mint_decision deepCompare (latest_version r d) r),
       (select_prompt (orgId r) (promptId r) d).
Qed.

(** The database after the procedure ran on a record with a template. *)
Lemma resolve_tables (deepCompare : value -> value -> bool)
    (r : PromptRecord) (d d' : database) :
  truthy (heliconeTemplate r) = true ->
  resolve deepCompare r d = Some d' ->
  exists version keys,
    resolved_version deepCompare r d = Some version /\
    Object_keys (member (heliconeTemplate r) "inputs") = inr keys /\
    d' = insert_input_record (member (heliconeTemplate r) "inputs") (requestId r)
           version (createdAt r)
           (insert_input_keys keys version (with_version deepCompare r d)).
Proof.
  intros Htpl. unfold resolve. rewrite Htpl.
  destruct (resolved_version deepCompare r d) as [version |]; [| done].
  destruct (Object_keys (member (heliconeTemplate r) "inputs")) as [e | keys]; [done |].
  intros [= <-]. by exists version, keys.
Qed.





Section Keeping.

Variable fails : nat -> bool.
Variable deepCompare : value -> value -> bool.

Lemma processPrompt_grows (r : PromptRecord) :
  preserves grows (fun _ => True) (processPrompt fails deepCompare r).
Proof.
  unfold processPrompt. cbv zeta. preserve.
  all: try done.
  all: split_and!; cbn; try done; try (by apply prefix_app_r).
  apply union_subseteq_l.
Qed.

Lemma for_prompts_grows (rs : list PromptRecord) :
  preserves grows (fun _ => True) (for_prompts fails deepCompare rs).
Proof.
  induction rs as [|r rs IH]; cbn [for_prompts]; preserve.
  all: try done.
  apply processPrompt_grows.
Qed.

Lemma transaction_grows (payload : BatchPayload) :
  preserves grows (fun _ => True) (transaction fails deepCompare payload).
Proof.
  unfold transaction. preserve.
  all: try done.
  all: try apply for_prompts_grows.
  all: split_and!; cbn; try done; apply upsert_ids_prefix.
Qed.

(** A lookup of the prompt that finds several rows ends [processPrompt]. *)
Lemma processPrompt_ambiguous (r : PromptRecord) (st : txstate) :
  truthy (heliconeTemplate r) = true ->
  (1 < length (select_prompt (orgId r) (promptId r) (tx_db st)))%nat ->
  processPrompt fails deepCompare r st
  = (inl (if fails (tx_issued st) then DbError (tx_issued st) else QueryResultError),
     sent SelectPrompt st).
Proof.
  intros Htpl Hrows. unfold processPrompt. rewrite Htpl. cbn [negb].
  unfold bind at 1. unfold t_oneOrNone, bind, issue, run_on_db, sent.
  destruct (fails (tx_issued st)); [done |]. cbn [tx_db].
  destruct (select_prompt (orgId r) (promptId r) (tx_db st)) as [|p [|p' rows]];
    cbn in Hrows; try lia. done.
Qed.

Lemma for_prompts_ambiguous (rs : list PromptRecord) (r : PromptRecord) (st : txstate) :
  r ∈ rs -> truthy (heliconeTemplate r) = true ->
  (1 < length (select_prompt (orgId r) (promptId r) (tx_db st)))%nat ->
  exists e, (for_prompts fails deepCompare rs st).1 = inl e.
Proof.
  intros Hin Htpl. revert st.
  induction rs as [|r' rs IH]; intros st Hrows; [by inversion Hin |].
  rewrite for_prompts_cons.
  destruct (fails (tx_issued st)); [by eexists |].
  pose proof (processPrompt_grows r' (entered r' st))
    as [(_ & _ & _ & Hgrows & _) _].
  destruct (processPrompt fails deepCompare r' (entered r' st)) as [[e | x] st'] eqn:Hrun;
    [by eexists |].
  apply elem_of_cons in Hin as [<- | Hin].
  - rewrite processPrompt_ambiguous in Hrun by done. done.
  - apply IH; [done |]. cbn [snd entered tx_db] in Hgrows.
    apply (select_prompt_grows (orgId r) (promptId r)), prefix_length in Hgrows. lia.
Qed.



(** The three bulk steps send their statements in the order of the tables,
    and the loop comes after them. *)
Lemma transaction_bulk_order (payload : BatchPayload) (st : txstate) :
  wp (transaction fails deepCompare payload)
    (fun _ st' =>
       exists bulk loop,
         tx_trace st' = tx_trace st ++ bulk ++ loop /\
         bulk `sublist_of`
           [Stmt InsertRequest; Stmt InsertResponse; Stmt InsertProperties] /\
         Forall (fun e => prompt_event e = true) loop) st.
Proof.
  assert (Hsub : forall b1 b2 b3 : bool,
            (if b1 then [Stmt InsertRequest] else [])
            ++ (if b2 then [Stmt InsertResponse] else [])
            ++ (if b3 then [Stmt InsertProperties] else [])
            `sublist_of` [Stmt InsertRequest; Stmt InsertResponse; Stmt InsertProperties]).
  { intros [|] [|] [|]; cbn; repeat first [done | by constructor | constructor]. }
  assert (Hafter : forall s f es st0,
            tx_trace (after_bulk s f es st0)
            = tx_trace st0 ++ (if bool_decide (es <> []) then [Stmt s] else [])).
  { intros s f es st0. unfold after_bulk.
    case_decide; [rewrite bool_decide_false by naive_solver
                 | rewrite bool_decide_true by done]; cbn; by rewrite ?app_nil_r. }
  unfold transaction.
  apply wp_bind, wp_bulk_step.
  { intros _ _. exists [Stmt InsertRequest], []. split_and!; [done | | constructor].
    apply (Hsub true false false). }
  intros _.
  set (st1 := after_bulk InsertRequest _ (requests payload) st).
  apply wp_bind, wp_bulk_step.
  { intros _ _.
    exists ((if bool_decide (requests payload <> []) then [Stmt InsertRequest] else [])
            ++ [Stmt InsertResponse]), [].
    split_and!; [| | constructor].
    - cbn. subst st1. by rewrite Hafter, app_nil_r, app_assoc.
    - apply (Hsub _ true false). }
  intros _.
  set (st2 := after_bulk InsertResponse _ (responses payload) st1).
  apply wp_bind, wp_bulk_step.
  { intros _ _.
    exists ((if bool_decide (requests payload <> []) then [Stmt InsertRequest] else [])
            ++ (if bool_decide (responses payload <> []) then [Stmt InsertResponse] else [])
            ++ [Stmt InsertProperties]), [].
    split_and!; [| | constructor].
    - cbn. subst st2 st1. by rewrite !Hafter, app_nil_r, <- !app_assoc.
    - apply (Hsub _ _ true). }
  intros _.
  set (st3 := after_bulk InsertProperties _ (properties_in payload) st2).
  unfold wp.
  destruct (for_prompts_preserves fails deepCompare
              (fun e => prompt_event e = true)
              (Array_sort byCreatedAt (prompts payload)) (fun _ H => H) st3)
    as (_ & loop & Hloop & Hevents).
  exists ((if bool_decide (requests payload <> []) then [Stmt InsertRequest] else [])
          ++ (if bool_decide (responses payload <> []) then [Stmt InsertResponse] else [])
          ++ (if bool_decide (properties_in payload <> [])
              then [Stmt InsertProperties] else [])), loop.
  split_and!; [| apply Hsub | done].
  rewrite Hloop. subst st3 st2 st1. by rewrite !Hafter, <- !app_assoc.
Qed.


End Keeping.

(** X9: no call deletes anything, whether it succeeds or fails: in the
    database it stores, the rows of the three bulk tables are still there
    under their keys and at their places, the prompts, the versions and the
    audit rows that were there are the first rows of their tables,
    unchanged, and every input key that was recorded still is. *)
Theorem insertLogBatch_never_deletes (fails : nat -> bool)
    (deepCompare : value -> value -> bool) (payload : BatchPayload) (d : database) :
  let d' := stored (insertLogBatch fails deepCompare payload d) in
  row_id <$> request d `prefix_of` row_id <$> request d' /\
  row_id <$> response d `prefix_of` row_id <$> response d' /\
  row_id <$> properties d `prefix_of` row_id <$> properties d' /\
  prompt_v2 d `prefix_of` prompt_v2 d' /\
  prompts_versions d `prefix_of` prompts_versions d' /\
  prompt_input_keys d ⊆ prompt_input_keys d' /\
  prompt_input_record d `prefix_of` prompt_input_record d'.
Proof.
  intros d'. change (grows d d'). subst d'.
  rewrite insertLogBatch_unfold. destruct (fails 0%nat); [reflexivity |].
  pose proof (transaction_grows fails deepCompare payload (sent Begin (TxState d 0 [])))
    as [Hgrows _].
  destruct (transaction fails deepCompare payload (sent Begin (TxState d 0 [])))
    as [[e | x] st']; [reflexivity |].
  destruct (fails (tx_issued st')); [reflexivity | exact Hgrows].
Qed.

(** X10: a batch fails as a whole and stores nothing when one of its
    prompts has a template and the table of prompts holds more than one row
    for its organization and prompt id.  For such a record [processPrompt]
    throws after its first statement, the lookup of the prompt: a
    [QueryResultError] when the server answered, and the database is not
    touched. *)
Theorem insertLogBatch_ambiguous_prompt (fails : nat -> bool)
    (deepCompare : value -> value -> bool) (payload : BatchPayload) (d : database)
    (r : PromptRecord) :
  r ∈ prompts payload ->
  truthy (heliconeTemplate r) = true ->
  (1 < length (select_prompt (orgId r) (promptId r) d))%nat ->
  let out := insertLogBatch fails deepCompare payload d in
  returned out = err "Failed to insert log batch" /\
  stored out = d /\
  forall st,
    tx_db st = d ->
    fails (tx_issued st) = false ->
    processPrompt fails deepCompare r st
    = (inl QueryResultError,
       TxState d (S (tx_issued st)) (tx_trace st ++ [Stmt SelectPrompt])).
Proof.
  intros Hin Htpl Hrows out.
  assert (Hfail : returned out = err "Failed to insert log batch" /\ stored out = d).
  { apply insertLogBatch_failure. intros Hok.
    destruct (insertLogBatch_success fails deepCompare payload d Hok)
      as (st_b & st' & (Hprompts & _) & _ & _ & _ & Hloop & _).
    destruct (for_prompts_ambiguous fails deepCompare
                (Array_sort byCreatedAt (prompts payload)) r st_b) as [e He];
      [by rewrite Array_sort_perm | done | | by rewrite Hloop in He].
    unfold select_prompt. by rewrite Hprompts. }
  destruct Hfail as [Hreturned Hstored].
  split_and!; [done | done |]. intros st <- Hf.
  rewrite processPrompt_ambiguous by done. by rewrite Hf.
Qed.

Lemma insertLogBatch_ambiguous_prompt_witness :
  returned
    (insertLogBatch Sample.no_faults deepCompare_spec
       (Sample.payload_of [] [Sample.record "req-2" "Hi {{name}}" 2000])
       Sample.two_prompts_db)
  = err "Failed to insert log batch".
Proof.
  destruct (insertLogBatch_ambiguous_prompt Sample.no_faults deepCompare_spec
              (Sample.payload_of [] [Sample.record "req-2" "Hi {{name}}" 2000])
              Sample.two_prompts_db (Sample.record "req-2" "Hi {{name}}" 2000))
    as (Hreturned & _).
  - apply elem_of_cons. by left.
  - reflexivity.
  - vm_compute. lia.
  - exact Hreturned.
Defined.









(** X15: in every call the bulk statements come first and in the order of
    the tables: after [BEGIN] the trace has the insertion into [request],
    the one into [response] and the one into [properties], each at most
    once and in this order, and nothing that follows them, no lock, no
    statement of [processPrompt], no [COMMIT] or [ROLLBACK], is a bulk
    statement.  Rows of responses are sent only after the rows of the
    requests they refer to. *)
Theorem insertLogBatch_bulk_first (fails : nat -> bool)
    (deepCompare : value -> value -> bool) (payload : BatchPayload) (d : database) :
  exists bulk rest,
    trace (insertLogBatch fails deepCompare payload d) = Stmt Begin :: bulk ++ rest /\
    bulk `sublist_of` [Stmt InsertRequest; Stmt InsertResponse; Stmt InsertProperties] /\
    forall s, Stmt s ∈ rest -> bulk_statement s = false.
Proof.
  rewrite insertLogBatch_unfold. destruct (fails 0%nat).
  { exists [], []. split_and!; [done | apply sublist_nil_l |].
    by intros s Hs%elem_of_nil. }
  pose proof (transaction_bulk_order fails deepCompare payload
                (sent Begin (TxState d 0 []))) as Hrun.
  unfold wp in Hrun.
  destruct (transaction fails deepCompare payload (sent Begin (TxState d 0 [])))
    as [[e | x] st']; cbn [snd] in Hrun;
    destruct Hrun as (bulk & loop & Htr & Hsub & Hloop);
    [exists bulk, (loop ++ [Stmt Rollback])
    | destruct (fails (tx_issued st')); exists bulk, (loop ++ [Stmt Commit])];
    cbn [trace]; rewrite Htr; cbn; rewrite <- !app_assoc;
    (split_and!; [done | done |]);
    intros s [Hs | [= ->]%list_elem_of_singleton]%elem_of_app; try done;
    rewrite Forall_forall in Hloop; specialize (Hloop _ Hs); by destruct s.
Qed.

(** ** The log store: the upsert, row by row *)




















(** ** The log store: the statements of the resolver *)


Section Sending.

Variable fails : nat -> bool.
Variable deepCompare : value -> value -> bool.


End Sending.



(** *** Unique prompts, unique major versions *)

Lemma resolve_prompts_unique (deepCompare : value -> value -> bool)
    (r : PromptRecord) (d d' : database) :
  prompts_unique d -> resolve deepCompare r d = Some d' -> prompts_unique d'.
Proof.
  intros Hd Hres. destruct (truthy (heliconeTemplate r)) eqn:Htpl;
    [| unfold resolve in Hres; rewrite Htpl in Hres; by simplify_eq].
  destruct (resolve_tables deepCompare r d d' Htpl Hres)
    as (version & keys & _ & _ & Hd').
  assert (Hrows : prompt_v2 d' = prompt_v2 (ensure_prompt r d)).
  { rewrite Hd'. cbn. apply with_version_prompt_v2. }
  intros org pid. unfold select_prompt. rewrite Hrows. unfold ensure_prompt.
  destruct (select_prompt (orgId r) (promptId r) d) as [|p rows] eqn:Hsel;
    [| apply Hd].
  cbn [insert_prompt snd prompt_v2]. rewrite filter_app, length_app, filter_cons.
  case_decide as Hkey; cbn in Hkey; [| cbn; specialize (Hd org pid);
                                       unfold select_prompt in Hd; lia].
  destruct Hkey as [<- <-]. unfold select_prompt in Hsel. by rewrite Hsel.
Qed.

Lemma resolve_majors_unique (deepCompare : value -> value -> bool)
    (r : PromptRecord) (d d' : database) :
  majors_unique d -> resolve deepCompare r d = Some d' -> majors_unique d'.
Proof.
  intros Hd Hres. destruct (truthy (heliconeTemplate r)) eqn:Htpl;
    [| unfold resolve in Hres; rewrite Htpl in Hres; by simplify_eq].
  destruct (resolve_tables deepCompare r d d' Htpl Hres)
    as (version & keys & _ & _ & Hd').
  assert (Hversions : prompts_versions d' = prompts_versions (with_version deepCompare r d))
    by (by rewrite Hd').
  rewrite with_version_versions in Hversions.
  intros org p. rewrite Hversions.
  destruct (mint_decision deepCompare (latest_version r d) r); [| apply Hd].
  rewrite filter_app, filter_cons.
  case_decide as Hkey; cbn in Hkey; [| rewrite filter_nil, app_nil_r; apply Hd].
  destruct Hkey as [<- <-]. rewrite filter_nil, fmap_app. apply NoDup_app.
  split_and!; [apply Hd | | apply NoDup_singleton].
  intros major (v & -> & Hv)%list_elem_of_fmap Hin%list_elem_of_singleton.
  cbn in Hin. unfold next_major in Hin.
  pose proof (greatest_major_max
                (filter (fun v => v_organization v = orgId r /\
                                  v_prompt_v2 v = prompt_of r d)
                   (prompts_versions d))) as Hmax.
  change (greatest_major _) with (latest_version r d) in Hmax.
  destruct (latest_version r d) as [b |].
  - specialize (Hmax v Hv). lia.
  - rewrite Hmax in Hv. by apply elem_of_nil in Hv.
Qed.

Lemma resolve_all_unique (deepCompare : value -> value -> bool)
    (rs : list PromptRecord) (d d' : database) :
  resolve_all deepCompare rs d = Some d' ->
  (prompts_unique d -> prompts_unique d') /\ (majors_unique d -> majors_unique d').
Proof.
  revert d. induction rs as [|r rs IH]; intros d; cbn [resolve_all].
  { by intros [= <-]. }
  destruct (resolve deepCompare r d) as [d1 |] eqn:Hr; [| done].
  intros [Hp Hm]%IH. split; intros Hd.
  - by eapply Hp, resolve_prompts_unique.
  - by eapply Hm, resolve_majors_unique.
Qed.

(** X20: every call keeps the prompt tables well-formed.  When no prompt
    id of an organization has two rows in the table of prompts before a
    call, none has afterwards; when no two versions of a prompt have the
    same major version before, none have afterwards. *)
Theorem insertLogBatch_keeps_unique (fails : nat -> bool)
    (deepCompare : value -> value -> bool) (payload : BatchPayload) (d : database) :
  let d' := stored (insertLogBatch fails deepCompare payload d) in
  (prompts_unique d -> prompts_unique d') /\ (majors_unique d -> majors_unique d').
Proof.
  intros d'.
  assert (Hcases : returned (insertLogBatch fails deepCompare payload d)
                   = ok "Successfully inserted log batch" \/ d' = d).
  { subst d'. rewrite insertLogBatch_unfold. destruct (fails 0%nat); [by right |].
    destruct (transaction fails deepCompare payload (sent Begin (TxState d 0 [])))
      as [[e | x] st']; [by right |].
    destruct (fails (tx_issued st')); [by right | by left]. }
  destruct Hcases as [Hok | ->]; [| done].
  pose proof (insertLogBatch_refines fails deepCompare payload d Hok) as Hrefines.
  by apply resolve_all_unique in Hrefines.
Qed.

(** ** The log store: partial effects, the comparator, mixed batches *)

Section Throwing.

Variable fails : nat -> bool.
Variable deepCompare : value -> value -> bool.

(** When [processPrompt] throws the [TypeError], the prompt and the version
    are in the database it leaves. *)
Lemma processPrompt_TypeError (r : PromptRecord) (st : txstate) :
  wp (processPrompt fails deepCompare r)
    (fun res st' =>
       res = inl TypeError ->
       truthy (heliconeTemplate r) = true /\
       Object_keys (member (heliconeTemplate r) "inputs") = inl TypeError /\
       tx_db st' = with_version deepCompare r (tx_db st)) st.
Proof.
  unfold processPrompt.
  destruct (truthy (heliconeTemplate r)) eqn:Htpl; cbn [negb]; [| by apply wp_ret].
  set (d := tx_db st).
  set (Q := fun (res : exn + Result string) (st' : txstate) =>
              res = inl TypeError ->
              true = true /\
              Object_keys (member (heliconeTemplate r) "inputs") = inl TypeError /\
              tx_db st' = with_version deepCompare r d).
  assert (Hdb : forall n st', Q (inl (DbError n)) st') by (by intros n st' ?).
  lazymatch goal with
  | |- wp (bind _ (fun found => bind _ (fun existingPrompt =>
             bind _ (fun existingPromptVersion => bind _ ?K)))) _ _ =>
      set (tail := K)
  end.
  assert (Htail : forall st2 version,
            tx_db st2 = with_version deepCompare r d ->
            wp (tail (Some version)) Q st2).
  { intros st2 version Hst2. subst tail. cbv beta.
    apply wp_bind, wp_bind, wp_lift.
    destruct (Object_keys (member (heliconeTemplate r) "inputs")) as [e | keys] eqn:Hkeys.
    { intros [= ->]. done. }
    apply wp_bind, wp_t_none; [intros; apply Hdb |].
    intros _. apply wp_t_none; [intros; apply Hdb |].
    intros _. apply wp_ret. by intros ?. }
  lazymatch goal with
  | |- wp (bind _ (fun found => bind _ ?K)) _ _ => set (rest := K)
  end.
  assert (Hrest : forall st1,
            tx_db st1 = ensure_prompt r d ->
            wp (rest (prompt_of r d)) Q st1).
  { intros st1 Hst1. subst rest. cbv beta.
    apply wp_bind, wp_t_oneOrNone; [intros; apply Hdb |].
    intros _.
    rewrite (select_latest_version_ext _ _ d (tx_db st1))
      by (by rewrite Hst1, ensure_prompt_versions).
    change (select_latest_version (orgId r) (prompt_of r d) d)
      with (latest_version r d).
    destruct (latest_version r d) as [v |] eqn:Hlatest;
      unfold option_list, option_rect; cbv beta iota.
    - assert (Hmint : mint_decision deepCompare (Some v) r
                      = (v_created_at v <=? createdAt r)
                        && negb (deepCompare (v_helicone_template v)
                                   (heliconeTemplate r))) by done.
      destruct ((v_created_at v <=? createdAt r)
                && negb (deepCompare (v_helicone_template v) (heliconeTemplate r))).
      + apply wp_bind, wp_bind, wp_t_one; [intros; apply Hdb |].
        intros _. apply wp_ret, Htail.
        unfold with_version, next_major. rewrite Hlatest, Hmint. cbn. by rewrite Hst1.
      + apply wp_bind, wp_ret, Htail.
        unfold with_version. by rewrite Hlatest, Hmint.
    - apply wp_bind, wp_bind, wp_t_one; [intros; apply Hdb |].
      intros _. apply wp_ret, Htail.
      unfold with_version, next_major. rewrite Hlatest. cbn. by rewrite Hst1. }
  apply wp_bind, wp_t_oneOrNone; [intros; apply Hdb |].
  intros _. fold d.
  destruct (select_prompt (orgId r) (promptId r) d) as [|p [|p' rows]] eqn:Hsel.
  - apply wp_bind, wp_t_one; [intros; apply Hdb |].
    intros _. cbn [insert_prompt fst snd].
    replace (next_uuid (tx_db (sent SelectPrompt st))) with (prompt_of r d)
      by (unfold prompt_of; by rewrite Hsel).
    apply Hrest. unfold ensure_prompt, prompt_of. by rewrite Hsel.
  - apply wp_bind, wp_ret.
    replace (p_id p) with (prompt_of r d) by (unfold prompt_of; by rewrite Hsel).
    apply Hrest. unfold ensure_prompt. by rewrite Hsel.
  - by intros ?.
Qed.

End Throwing.

(** X21: [processPrompt] is not atomic by itself.  When it throws the
    [TypeError] of a template whose inputs have no keys to read, it has
    already done what comes before: the database it leaves has the prompt of
    the record, created if it was missing, and the version the record mints,
    if it is to mint one, and neither an input key nor an audit row for it.
    Only the rollback of the transaction it runs in takes them back. *)
Theorem processPrompt_not_atomic (fails : nat -> bool)
    (deepCompare : value -> value -> bool) (r : PromptRecord) (st : txstate) :
  (processPrompt fails deepCompare r st).1 = inl TypeError ->
  let d := tx_db st in
  let d' := tx_db (processPrompt fails deepCompare r st).2 in
  Object_keys (member (heliconeTemplate r) "inputs") = inl TypeError /\
  select_prompt (orgId r) (promptId r) d' <> [] /\
  (must_mint deepCompare (latest_version r d) r ->
   exists id, prompts_versions d' = prompts_versions d ++ [minted r d id]) /\
  (~ must_mint deepCompare (latest_version r d) r ->
   prompts_versions d' = prompts_versions d) /\
  prompt_input_keys d' = prompt_input_keys d /\
  prompt_input_record d' = prompt_input_record d.
Proof.
  intros Hthrown d d'.
  pose proof (processPrompt_TypeError fails deepCompare r st) as Hres.
  unfold wp in Hres. destruct (Hres Hthrown) as (_ & Hkeys & Hd'). fold d d' in Hd'.
  split_and!; [done | | | | by rewrite Hd', (proj1 (with_version_rest _ _ _))
              | by rewrite Hd', (proj2 (with_version_rest _ _ _))].
  - rewrite (select_prompt_ensure r d d') by (by rewrite Hd', with_version_prompt_v2).
    by destruct (select_prompt (orgId r) (promptId r) d).
  - intros Hmint%mint_decision_spec. eexists.
    by rewrite Hd', with_version_versions, Hmint.
  - intros Hno. rewrite Hd', with_version_versions.
    destruct (mint_decision deepCompare (latest_version r d) r) eqn:Hmint; [| done].
    by apply mint_decision_spec in Hmint.
Qed.

Lemma processPrompt_not_atomic_witness :
  exists id,
    prompts_versions
      (tx_db (processPrompt Sample.no_faults deepCompare_spec
                Sample.record_without_inputs (Sample.start Sample.empty_db)).2)
    = [minted Sample.record_without_inputs Sample.empty_db id].
Proof.
  destruct (processPrompt_not_atomic Sample.no_faults deepCompare_spec
              Sample.record_without_inputs (Sample.start Sample.empty_db))
    as (_ & _ & Hmint & _).
  - vm_compute. reflexivity.
  - destruct Hmint as [id Hid]; [by left |]. exists id. exact Hid.
Defined.

(** X22: the comparator the prompts are sorted with is a consistent
    ordering, as [Array.prototype.sort] asks for: it answers -1, 0 or 1,
    swapping its arguments negates the answer, it answers 0 exactly for equal
    times and a negative number exactly for an earlier first time, and it is
    transitive. *)
Theorem byCreatedAt_consistent (a b c : PromptRecord) :
  byCreatedAt a b = - byCreatedAt b a /\
  (byCreatedAt a b = 0 <-> createdAt a = createdAt b) /\
  (byCreatedAt a b < 0 <-> createdAt a < createdAt b) /\
  (byCreatedAt a b <= 0 -> byCreatedAt b c <= 0 -> byCreatedAt a c <= 0) /\
  byCreatedAt a b ∈ [-1; 0; 1].
Proof.
  rewrite !byCreatedAt_compare, (Z.compare_antisym (createdAt a) (createdAt b)).
  destruct (Z.compare_spec (createdAt a) (createdAt b)) as [Hab | Hab | Hab];
    destruct (Z.compare_spec (createdAt b) (createdAt c)) as [Hbc | Hbc | Hbc];
    destruct (Z.compare_spec (createdAt a) (createdAt c)) as [Hac | Hac | Hac];
    cbn; rewrite !elem_of_cons; split_and!; try lia; try tauto.
Qed.



(** * The scenarios of the specification, run *)

(** Records of equal time keep the order they came in. *)
Example sort_keeps_arrival_order_of_ties :
  requestId <$>
    Array_sort byCreatedAt
      [Sample.record "a" "x" 2000; Sample.record "b" "x" 1000;
       Sample.record "c" "x" 2000; Sample.record "d" "x" 1000]
  = ["b"; "d"; "a"; "c"].
Proof. reflexivity. Qed.

(** Version creation: four records with new templates, each younger than
    the last, mint the major versions 1 to 4 after version 0. *)
Example four_new_templates_mint_four_versions :
  v_major_version <$>
    prompts_versions
      (stored
         (insertLogBatch Sample.no_faults deepCompare_spec
            (Sample.payload_of [Sample.request_entry "q2" "body"]
               [Sample.record "req-2" "Hi {{name}}" 2000;
                Sample.record "req-3" "Hey {{name}}" 3000;
                Sample.record "req-4" "Ho {{name}}" 4000;
                Sample.record "req-5" "Ha {{name}}" 5000])
            Sample.one_version_db))
  = [0; 1; 2; 3; 4].
Proof. vm_compute. reflexivity. Qed.

(** Version dedup: the template of version 0 again, at a later time, mints
    nothing, and still leaves its audit row. *)
Example same_template_mints_nothing :
  let out :=
    insertLogBatch Sample.no_faults deepCompare_spec
      (Sample.payload_of [] [Sample.record "req-2" "Hello {{name}}" 2000])
      Sample.one_version_db in
  prompts_versions (stored out) = [Sample.version0] /\
  ir_source_request <$> prompt_input_record (stored out) = ["req-1"; "req-2"].
Proof. vm_compute. split; reflexivity. Qed.

(** Partial-batch atomicity: the server rejects statement 17, the insertion
    of the version of the third of four prompts; the call answers with the
    error result and the database is the one before the call. *)
Example third_of_four_prompts_fails :
  let out :=
    insertLogBatch (fun n => Nat.eqb n 17) deepCompare_spec
      (Sample.payload_of [Sample.request_entry "q2" "body"]
         [Sample.record "req-2" "Hi {{name}}" 2000;
          Sample.record "req-3" "Hey {{name}}" 3000;
          Sample.record "req-4" "Ho {{name}}" 4000;
          Sample.record "req-5" "Ha {{name}}" 5000])
      Sample.one_version_db in
  returned out = err "Failed to insert log batch" /\
  stored out = Sample.one_version_db /\
  last (trace out) = Some (Stmt Rollback) /\
  steps_of (trace out)
  = prompt_steps
      [Sample.record "req-2" "Hi {{name}}" 2000;
       Sample.record "req-3" "Hey {{name}}" 3000;
       Sample.record "req-4" "Ho {{name}}" 4000].
Proof. vm_compute. repeat split; reflexivity. Qed.

(** Idempotent upsert: the request "q1" in two batches, with two bodies,
    leaves one row, with the body of the second batch. *)
Example same_request_in_two_batches :
  let first :=
    insertLogBatch Sample.no_faults deepCompare_spec
      (Sample.payload_of [Sample.request_entry "q1" "first"] []) Sample.empty_db in
  let second :=
    insertLogBatch Sample.no_faults deepCompare_spec
      (Sample.payload_of [Sample.request_entry "q1" "second"] []) (stored first) in
  (fun r => (row_id r, row_cols r !! "body")) <$> request (stored second)
  = [("q1", Some (VStr "second"))].
Proof. vm_compute. reflexivity. Qed.

(** A payload without rows and without prompts sends nothing but [BEGIN]
    and [COMMIT]. *)
Example empty_payload_sends_nothing :
  trace (insertLogBatch Sample.no_faults deepCompare_spec
           (Sample.payload_of [] []) Sample.empty_db)
  = [Stmt Begin; Stmt Commit].
Proof. reflexivity. Qed.

(** The deep comparison does not see the order of the keys of an object. *)
Example deepCompare_spec_key_order :
  deepCompare_spec
    (VObj [("template", VStr "Hello"); ("inputs", VObj [])])
    (VObj [("inputs", VObj []); ("template", VStr "Hello")]) = true.
Proof. reflexivity. Qed.

(** A [temperature] of 0 is falsy, and so answered like a missing one. *)
Example handler_temperature_zero :
  Chat.statuses
    (Chat.handler "demo@helicone.ai" None (fun _ => inl "unreachable")
       [("temperature", VNum 0%float); ("model", VStr "claude-3-opus-20240229")])
  = [400].
Proof. reflexivity. Qed.
